(** * PiKPO_Project: the [DataProcessor] family of [processor/dataprocessor.py]

    A shallow embedding of the two versions of [dataprocessor.py]
    (lab3 and lab4_5) and the properties of their [read] / [run] methods.

    The methods are thin compositions of pandas calls.  The embedding keeps
    the control flow of the methods (the [try]/[except] blocks, the loop
    over separators, the in-place updates of [self._dataset]) and gives the
    pandas primitives the meaning pandas documents for the arguments the
    methods pass:
      - [Series.replace('', nan)], [DataFrame.dropna(subset=[c])],
        [pandas.cut(x, bins, labels=...)] (right-closed bins, found with
        [searchsorted(side='left')]), column assignment and
        [DataFrame.sort_values(by=[c])] with [na_position='last'] are
        written out;
      - the file parsers [pandas.read_csv] / [pandas.read_table] and the
        sorting kernel behind [kind='quicksort'] are parameters of the
        development; general theorems hold for every parser, and for every
        kernel that returns an ascending arrangement. *)

From Stdlib Require Import String Ascii Bool Arith ZArith QArith Lia Lqa.
From Stdlib Require Import List Permutation Sorted.
Import ListNotations.

Local Open Scope string_scope.
Local Open Scope list_scope.
Local Open Scope nat_scope.

Set Implicit Arguments.

(** ** Scalars *)

(** A float64 that is not NaN: a finite value or an infinity.  int64 cells
    are the integral finite values; every comparison made by the program is
    exact on them. *)
Inductive xnum : Type :=
| NegInf
| Fin (q : Q)
| PosInf.

Definition xltb (a b : xnum) : bool :=
  match a, b with
  | NegInf, NegInf => false
  | NegInf, _ => true
  | Fin _, NegInf => false
  | Fin p, Fin q => negb (Qle_bool q p)
  | Fin _, PosInf => true
  | PosInf, _ => false
  end.

Definition xleb (a b : xnum) : bool := negb (xltb b a).

Definition xlt (a b : xnum) : Prop := xltb a b = true.
Definition xle (a b : xnum) : Prop := xleb a b = true.

Definition xint (z : Z) : xnum := Fin (inject_Z z).

(** A cell of a table: the missing marker [np.nan], a number or a string
    (cells of an [object] column). *)
Inductive cell : Type :=
| NaN
| Num (x : xnum)
| Str (s : string).

Definition isna (c : cell) : bool :=
  match c with NaN => true | _ => false end.

Definition notna (c : cell) : bool := negb (isna c).

(** [a <= b] as Python evaluates it on two cells of one column: numbers by
    value, strings lexicographically, and [False] as soon as a NaN is
    involved. *)
Definition cell_leb (a b : cell) : bool :=
  match a, b with
  | Num x, Num y => xleb x y
  | Str s, Str t => String.leb s t
  | _, _ => false
  end.

(** ** Exceptions *)

(** The exceptions the program can meet.  All of them derive from
    [Exception], the class the handlers of [read] catch. *)
Inductive exn : Type :=
| AttributeError (msg : string)
| ValueError (msg : string)
| TypeError (msg : string)
| KeyError (key : string)
| EmptyDataError
| ParserError (expected line saw : nat).

Inductive exc (A : Type) : Type :=
| Ok (a : A)
| Raise (e : exn).

Arguments Ok {A} a.
Arguments Raise {A} e.

(** ** DataFrame *)

(** A row keeps the index label it was given when the file was read, so
    that rows with equal cells stay distinguishable. *)
Record Row : Type := mkRow { label : nat; cells : list cell }.

Record DataFrame : Type := mkDF { columns : list string; rows : list Row }.

(** Every row has one cell per column and column names are distinct
    (the parsers rename duplicated header names). *)
Definition wf_rows (n : nat) (rs : list Row) : Prop :=
  Forall (fun r => length (cells r) = n) rs.

Definition wf_df (df : DataFrame) : Prop :=
  NoDup (columns df) /\ wf_rows (length (columns df)) (rows df).

Definition cell_at (i : nat) (r : Row) : cell := nth i (cells r) NaN.

(** The filler of [take] for a position outside the frame; no indexer the
    program builds has one. *)
Definition no_row : Row := mkRow 0 [].

Fixpoint find_col (c : string) (cols : list string) : option nat :=
  match cols with
  | [] => None
  | c' :: cols' =>
      if String.eqb c c' then Some 0
      else option_map S (find_col c cols')
  end.

(** [df[c]]: the cells of column [c] in row order, [KeyError] when the
    frame has no such column. *)
Definition getitem (df : DataFrame) (c : string) : exc (list cell) :=
  match find_col c (columns df) with
  | Some i => Ok (map (cell_at i) (rows df))
  | None => Raise (KeyError c)
  end.

Fixpoint set_nth {A : Type} (i : nat) (v : A) (l : list A) : list A :=
  match i, l with
  | _, [] => []
  | O, _ :: l' => v :: l'
  | S i', x :: l' => x :: set_nth i' v l'
  end.

Definition iloc_set (i : nat) (v : cell) (r : Row) : Row :=
  mkRow (label r) (set_nth i v (cells r)).

(** [df[c] = values]: overwrite column [c] when it exists, append it as
    the last column otherwise.  [values] has the index of [df]. *)
Definition setitem (df : DataFrame) (c : string) (values : list cell)
  : DataFrame :=
  match find_col c (columns df) with
  | Some i =>
      mkDF (columns df)
           (map (fun rv => iloc_set i (snd rv) (fst rv))
                (combine (rows df) values))
  | None =>
      mkDF (columns df ++ [c])
           (map (fun rv => mkRow (label (fst rv)) (cells (fst rv) ++ [snd rv]))
                (combine (rows df) values))
  end.

(** ** pandas primitives used by [run] *)

(** [Series.replace('', np.nan)] on one cell. *)
Definition replace_empty (c : cell) : cell :=
  match c with
  | Str s => if String.eqb s "" then NaN else c
  | _ => c
  end.

(** [df[col_i].replace('', np.nan, inplace=True)]: the column [df[col_i]]
    shares its data with [df], so the frame itself is updated. *)
Definition replace_inplace (i : nat) (rs : list Row) : list Row :=
  map (fun r => iloc_set i (replace_empty (cell_at i r)) r) rs.

(** [df.dropna(subset=[col_i], inplace=True)]. *)
Definition dropna (i : nat) (rs : list Row) : list Row :=
  filter (fun r => notna (cell_at i r)) rs.

(** [bins.searchsorted(x, side='left')] for increasing [bins]: the number
    of bin edges strictly below [x]. *)
Fixpoint searchsorted_left (bins : list xnum) (x : xnum) : nat :=
  match bins with
  | [] => 0
  | b :: bins' => if xltb b x then S (searchsorted_left bins' x) else 0
  end.

Fixpoint increasing (bins : list xnum) : bool :=
  match bins with
  | a :: (b :: _) as bins' => xltb a b && increasing bins'
  | _ => true
  end.

(** One cell of [pandas.cut(x, bins, labels=labels)] with the defaults
    [right=True], [include_lowest=False]: [ids] outside [1 .. len(bins)-1]
    and missing values are masked, the others take [labels[ids - 1]]. *)
Definition cut_cell (bins : list xnum) (labels : list Z) (c : cell)
  : exc cell :=
  match c with
  | NaN => Ok NaN
  | Str _ => Raise (TypeError "'<' not supported between instances of 'float' and 'str'")
  | Num x =>
      let ids := searchsorted_left bins x in
      if (ids =? 0) || (ids =? length bins) then Ok NaN
      else match nth_error labels (ids - 1) with
           | Some l => Ok (Num (xint l))
           | None => Ok NaN
           end
  end.

Fixpoint cut_cells (bins : list xnum) (labels : list Z) (x : list cell)
  : exc (list cell) :=
  match x with
  | [] => Ok []
  | c :: x' =>
      match cut_cell bins labels c with
      | Raise e => Raise e
      | Ok c' =>
          match cut_cells bins labels x' with
          | Raise e => Raise e
          | Ok r => Ok (c' :: r)
          end
      end
  end.

Definition cut (x : list cell) (bins : list xnum) (labels : list Z)
  : exc (list cell) :=
  if negb (increasing bins) then
    Raise (ValueError "bins must increase monotonically.")
  else if negb (length labels =? length bins - 1) then
    Raise (ValueError "Bin labels must be one fewer than the number of bin edges")
  else cut_cells bins labels x.

(** The literals of [run]: [[0, 500000, 1500000, np.inf]] and [[1, 2, 3]]. *)
Definition price_bins : list xnum :=
  [xint 0; xint 500000; xint 1500000; PosInf].

Definition price_labels : list Z := [1; 2; 3]%Z.

Definition price_category (c : cell) : exc cell :=
  cut_cell price_bins price_labels c.

(** ** Sorting: [DataFrame.sort_values(by=[colname], ascending=asc)] *)

(** The external services of pandas the program relies on.  [Source] is
    whatever [self._datasource] holds (a path, hence a file); [read_csv]
    and [read_table] stand for [pandas.read_csv(src, sep=s, header='infer',
    names=None, encoding="utf-8")] and [pandas.read_table(src, sep='\s+',
    engine='python')]; [argsort] is [ndarray.argsort(kind='quicksort')],
    the kernel [sort_values] runs on the non-missing keys. *)
Class Pandas (Source : Type) : Type := {
  read_csv : Source -> string -> exc DataFrame;
  read_table : Source -> exc DataFrame;
  argsort : list cell -> list nat
}.

(** Keys that can be compared with one another: all numbers, or all
    strings. *)
Definition is_num (c : cell) : bool :=
  match c with Num _ => true | _ => false end.

Definition is_str (c : cell) : bool :=
  match c with Str _ => true | _ => false end.

Definition comparable (keys : list cell) : bool :=
  forallb is_num keys || forallb is_str keys.

Definition key_le (keys : list cell) (i j : nat) : Prop :=
  cell_leb (nth i keys NaN) (nth j keys NaN) = true.

(** What numpy promises of [argsort] for every [kind]: an arrangement of
    the positions in which the keys ascend.  Nothing is promised of the
    order of equal keys unless a stable kind is asked for. *)
Definition argsort_ascends (f : list cell -> list nat) : Prop :=
  forall keys, comparable keys = true ->
    Permutation (f keys) (seq 0 (length keys)) /\
    Sorted (key_le keys) (f keys).

Definition take {A : Type} (d : A) (l : list A) (indexer : list nat)
  : list A :=
  map (fun i => nth i l d) indexer.

Section Sort_values.

Context {Source : Type} {P : Pandas Source}.

(** [pandas.core.sorting.nargsort(items, kind, ascending,
    na_position='last')]: the missing keys are set aside and appended in
    their original order; [TypeError] when the remaining keys cannot be
    compared with one another. *)
Definition nargsort (items : list cell) (ascending : bool)
  : exc (list nat) :=
  let idx := seq 0 (length items) in
  let non_nans := filter notna items in
  let non_nan_idx := filter (fun i => notna (nth i items NaN)) idx in
  let nan_idx := filter (fun i => isna (nth i items NaN)) idx in
  if negb (comparable non_nans) then
    Raise (TypeError "'<' not supported between instances of 'str' and 'float'")
  else
    let indexer :=
      if ascending then take 0 non_nan_idx (argsort non_nans)
      else rev (take 0 (rev non_nan_idx) (argsort (rev non_nans))) in
    Ok (indexer ++ nan_idx).

(** [df.sort_values(by=[by_], ascending=ascending)] on a frame whose
    column labels are distinct ([wf_df]); pandas refuses a label that
    names several columns. *)
Definition sort_values (df : DataFrame) (by_ : string) (ascending : bool)
  : exc DataFrame :=
  match getitem df by_ with
  | Raise e => Raise e
  | Ok k =>
      match nargsort k ascending with
      | Raise e => Raise e
      | Ok indexer =>
          Ok (mkDF (columns df) (take no_row (rows df) indexer))
      end
  end.

End Sort_values.

(** ** The processor object and the effects of its methods *)

Inductive message : Type :=
| ColumnsRead (col_names : list string) (separator : string)
| ExnText (e : exn)
| Text (s : string)
| Banner (s : string) (result : option DataFrame).

(** What a method does besides updating the object: it enters a parser and
    it prints. *)
Inductive event : Type :=
| CallReadCsv (separator : string)
| CallReadTable
| Print (m : message).

Section Processor.

Context {Source : Type}.

Record DataProcessor : Type := mkProcessor {
  _datasource : Source;
  _dataset : option DataFrame;
  result : option DataFrame;
  separators : list string
}.

(** [DataProcessor.__init__]; the attribute [separators] exists only on
    a [CsvDataProcessor]. *)
Definition DataProcessor_init (datasource : Source) : DataProcessor :=
  mkProcessor datasource None None [].

Definition CsvDataProcessor_init (datasource : Source) : DataProcessor :=
  let self := DataProcessor_init datasource in
  mkProcessor (_datasource self) (_dataset self) (result self)
              [";"; ","; "|"].

Definition TxtDataProcessor_init (datasource : Source) : DataProcessor :=
  DataProcessor_init datasource.

Record World : Type := mkWorld {
  self : DataProcessor;
  trace : list event
}.

(** Statements: they update the world and either complete with a value
    or raise.  Updates made before a [raise] stay. *)
Definition M (A : Type) : Type := World -> exc A * World.

Definition ret {A : Type} (a : A) : M A := fun w => (Ok a, w).

Definition raise {A : Type} (e : exn) : M A := fun w => (Raise e, w).

Definition bind {A B : Type} (m : M A) (k : A -> M B) : M B :=
  fun w =>
    match m w with
    | (Ok a, w') => k a w'
    | (Raise e, w') => (Raise e, w')
    end.

Definition lift {A : Type} (r : exc A) : M A :=
  match r with Ok a => ret a | Raise e => raise e end.

(** [try: body  except Exception as e: handler(e)]. *)
Definition try_except {A : Type} (body : M A) (handler : exn -> M A)
  : M A :=
  fun w =>
    match body w with
    | (Ok a, w') => (Ok a, w')
    | (Raise e, w') => handler e w'
    end.

Definition emit (ev : event) : M unit :=
  fun w => (Ok tt, mkWorld (self w) (trace w ++ [ev])).

Definition print (m : message) : M unit := emit (Print m).

Definition get_self : M DataProcessor := fun w => (Ok (self w), w).

Definition set_dataset (df : DataFrame) : M unit :=
  fun w =>
    let s := self w in
    (Ok tt, mkWorld (mkProcessor (_datasource s) (Some df) (result s)
                                 (separators s)) (trace w)).

Definition set_result (df : DataFrame) : M unit :=
  fun w =>
    let s := self w in
    (Ok tt, mkWorld (mkProcessor (_datasource s) (_dataset s) (Some df)
                                 (separators s)) (trace w)).

(** Using [self._dataset] as a table: [e] is raised when it is [None]. *)
Definition the_dataset (e : exn) : M DataFrame :=
  fun w =>
    match _dataset (self w) with
    | Some df => (Ok df, w)
    | None => (Raise e, w)
    end.

(** [self._dataset.attr]. *)
Definition dataset_attr (attr : string) : M DataFrame :=
  the_dataset
    (AttributeError ("'NoneType' object has no attribute '" ++ attr ++ "'")).

(** [self._dataset[...]]. *)
Definition dataset_subscript : M DataFrame :=
  the_dataset (TypeError "'NoneType' object is not subscriptable").

End Processor.

Arguments DataProcessor : clear implicits.
Arguments World : clear implicits.
Arguments M : clear implicits.

Declare Scope py_scope.
Delimit Scope py_scope with py.
Notation "x <- m ;; k" := (bind m (fun x => k))
  (at level 61, m at next level, right associativity) : py_scope.
Notation "m ;; k" := (bind m (fun _ => k))
  (at level 61, right associativity) : py_scope.
Local Open Scope py_scope.

(** ** Methods shared by the two versions of the file *)

Section Methods.

Context {Source : Type} {P : Pandas Source}.

Abbreviation Stmt := (M Source).

(** [DataProcessor.sort_data_by_col]; [df] is whatever the caller holds in
    [self._dataset], possibly [None]. *)
Definition sort_data_by_col (df : option DataFrame) (colname : string)
           (asc : bool) : Stmt DataFrame :=
  match df with
  | Some d => lift (sort_values d colname asc)
  | None =>
      raise (AttributeError
               "'NoneType' object has no attribute 'sort_values'")
  end.

Definition call_read_csv (datasource : Source) (separator : string)
  : Stmt DataFrame :=
  emit (CallReadCsv separator) ;;
  lift (read_csv datasource separator).

Definition call_read_table (datasource : Source) : Stmt DataFrame :=
  emit CallReadTable ;;
  lift (read_table datasource).

(** The [for separator in self.separators] loop of
    [CsvDataProcessor.read].  [Some b]: the loop executed [return b];
    [None]: it ran to its end. *)
Fixpoint read_for (seps : list string) : Stmt (option bool) :=
  match seps with
  | [] => ret None
  | separator :: seps' =>
      s <- get_self ;;
      df <- call_read_csv (_datasource s) separator ;;
      set_dataset df ;;
      d <- dataset_attr "columns" ;;
      let col_names := columns d in
      if 1 <? length col_names then
        print (ColumnsRead col_names separator) ;;
        ret (Some true)
      else read_for seps'
  end.

(** [CsvDataProcessor.read], the same text in lab3 and in lab4_5: the
    [try] encloses the whole loop. *)
Definition CsvDataProcessor_read : Stmt bool :=
  r <- try_except
         (s <- get_self ;; read_for (separators s))
         (fun e => print (ExnText e) ;; ret None) ;;
  match r with
  | Some b => ret b
  | None => ret false
  end.

(** [self._dataset[c].replace('', np.nan, inplace=True)]. *)
Definition replace_column (c : string) : Stmt unit :=
  df <- dataset_subscript ;;
  match find_col c (columns df) with
  | Some i => set_dataset (mkDF (columns df) (replace_inplace i (rows df)))
  | None => raise (KeyError c)
  end.

(** [self._dataset.dropna(subset=[c], inplace=True)]. *)
Definition dropna_column (c : string) : Stmt unit :=
  df <- dataset_attr "dropna" ;;
  match find_col c (columns df) with
  | Some i => set_dataset (mkDF (columns df) (dropna i (rows df)))
  | None => raise (KeyError c)
  end.

(** [for i in range(len(col_namess)): ...]. *)
Fixpoint clean_for (col_namess : list string) (range : list nat)
  : Stmt unit :=
  match range with
  | [] => ret tt
  | i :: range' =>
      replace_column (nth i col_namess "") ;;
      dropna_column (nth i col_namess "") ;;
      clean_for col_namess range'
  end.

(** The cleaning step of [CsvDataProcessor.run]. *)
Definition cleaning : Stmt unit :=
  df <- dataset_attr "columns" ;;
  let col_namess := columns df in
  clean_for col_namess (seq 0 (length col_namess)).

(** [self._dataset["price_category"] =
       pandas.cut(self._dataset["selling_price"],
                  [0,500000,1500000,np.inf], labels=[1,2,3])]. *)
Definition categorize : Stmt unit :=
  df <- dataset_subscript ;;
  x <- lift (getitem df "selling_price") ;;
  categories <- lift (cut x price_bins price_labels) ;;
  set_dataset (setitem df "price_category" categories).

(** [self.result = self.sort_data_by_col(self._dataset, "selling_price",
    True)], the last statement of every [run]. *)
Definition sort_into_result : Stmt unit :=
  s <- get_self ;;
  r <- sort_data_by_col (_dataset s) "selling_price" true ;;
  set_result r.

(** [TxtDataProcessor.run], the same in both versions. *)
Definition TxtDataProcessor_run : Stmt unit := sort_into_result.

Definition CsvDataProcessor_print_result : Stmt unit :=
  s <- get_self ;;
  print (Banner "Running CSV-file processor!" (result s)).

Definition TxtDataProcessor_print_result : Stmt unit :=
  s <- get_self ;;
  print (Banner "Running TXT-file processor!" (result s)).

(** The body of [TxtDataProcessor.read] from the call of [read_table]
    on, common to both versions. *)
Definition read_whitespace_table : Stmt bool :=
  s <- get_self ;;
  df <- call_read_table (_datasource s) ;;
  set_dataset df ;;
  d <- dataset_attr "columns" ;;
  let col_names := columns d in
  if length col_names <? 2 then ret false else ret true.

End Methods.

(** ** lab3: [ПиКПО_лаба3/lab3_example_app_python/processor/dataprocessor.py] *)

Module Lab3.
Section Lab3.

Context {Source : Type} {P : Pandas Source}.

Definition CsvDataProcessor_run : M Source unit :=
  cleaning ;;
  categorize ;;
  sort_into_result.

(** [self._dataset.isna()] and the truth value the [if] asks of it:
    [None] has no [isna]; a DataFrame has one, and the truth value of the
    frame it returns is an error. *)
Definition dataset_isna : M Source (list (list bool)) :=
  df <- dataset_attr "isna" ;;
  ret (map (fun r => map isna (cells r)) (rows df)).

Definition truth_value (mask : list (list bool)) : M Source bool :=
  raise (ValueError "The truth value of a DataFrame is ambiguous").

Definition TxtDataProcessor_read : M Source bool :=
  try_except
    (mask <- dataset_isna ;;
     b <- truth_value mask ;;
     (if b then print (Text "123") else print (Text "3222")) ;;
     read_whitespace_table)
    (fun e => print (ExnText e) ;; ret false).

End Lab3.
End Lab3.

(** ** lab4_5: [лаба4_5/processor/dataprocessor.py] *)

Module Lab4_5.
Section Lab4_5.

Context {Source : Type} {P : Pandas Source}.

(** [self.result = pandas.DataFrame()] comes first in this version. *)
Definition CsvDataProcessor_run : M Source unit :=
  set_result (mkDF [] []) ;;
  cleaning ;;
  categorize ;;
  sort_into_result.

Definition TxtDataProcessor_read : M Source bool :=
  try_except
    read_whitespace_table
    (fun e => print (ExnText e) ;; ret false).

End Lab4_5.
End Lab4_5.

(** ** A reference tokenizer for the scenarios

    The general theorems below hold for every [Pandas] instance.  To run
    the processors on the texts of the scenarios, [Plain] reads a file
    given by its text the way pandas reads a plain file: lines end with a
    line feed, blank lines are skipped, the first line is the header, a
    field is what lies between two separators (no quoting), a short line
    is padded with missing values, a line with more fields than the header
    is an error that names the line, and an empty file is an error.  A
    column whose fields are all integers or NA strings is numeric, any
    other column holds text.  Outside this fragment (quotes, decimal
    notation, lines made of white space only, an index column implied by
    a first data line wider than the header, repeated or empty header
    names) pandas does more than [Plain]. *)

Module Plain.

Fixpoint split_by (is_sep : ascii -> bool) (s : string) : list string :=
  match s with
  | EmptyString => [EmptyString]
  | String c s' =>
      if is_sep c then EmptyString :: split_by is_sep s'
      else match split_by is_sep s' with
           | f :: fs => String c f :: fs
           | [] => [String c EmptyString]
           end
  end.

Definition nonempty (s : string) : bool := negb (String.eqb s "").

Definition newline : ascii := Ascii.ascii_of_nat 10.

Definition is_space (c : ascii) : bool :=
  let n := Ascii.nat_of_ascii c in
  (n =? 32) || ((9 <=? n) && (n <=? 13)).

(** The lines of the text with their numbers in the file, blank ones
    dropped. *)
Definition numbered_lines (blank : string -> bool) (text : string)
  : list (nat * string) :=
  let ls := split_by (Ascii.eqb newline) text in
  filter (fun nl => negb (blank (snd nl))) (combine (seq 1 (length ls)) ls).

Definition empty_line (line : string) : bool := String.eqb line "".

Fixpoint white_line (line : string) : bool :=
  match line with
  | EmptyString => true
  | String c line' => is_space c && white_line line'
  end.

(** Fields of one line for a one-character separator. *)
Definition fields_sep (sep : string) (line : string) : list string :=
  match sep with
  | String c EmptyString => split_by (Ascii.eqb c) line
  | _ => [line]
  end.

(** Fields of one line for [sep='\s+']: the line is stripped and split
    at runs of white space. *)
Definition fields_ws (line : string) : list string :=
  filter nonempty (split_by is_space line).

Definition na_values : list string :=
  [""; "#N/A"; "#N/A N/A"; "#NA"; "-1.#IND"; "-1.#QNAN"; "-NaN"; "-nan";
   "1.#IND"; "1.#QNAN"; "<NA>"; "N/A"; "NA"; "NULL"; "NaN"; "None";
   "n/a"; "nan"; "null"].

Definition is_na_token (t : string) : bool :=
  existsb (String.eqb t) na_values.

Definition digit (c : ascii) : option Z :=
  let n := Ascii.nat_of_ascii c in
  if (48 <=? n) && (n <=? 57) then Some (Z.of_nat (n - 48)) else None.

Fixpoint digits (acc : Z) (s : string) : option Z :=
  match s with
  | EmptyString => Some acc
  | String c s' =>
      match digit c with
      | Some d => digits (10 * acc + d)%Z s'
      | None => None
      end
  end.

Definition integer (t : string) : option Z :=
  match t with
  | EmptyString => None
  | String "-" (String _ _ as t') => option_map Z.opp (digits 0 t')
  | _ => digits 0 t
  end.

Definition is_integer (t : string) : bool :=
  match integer t with Some _ => true | None => false end.

Fixpoint pad (n : nat) (fs : list string) : list string :=
  match n, fs with
  | O, _ => []
  | S n', [] => "" :: pad n' []
  | S n', f :: fs' => f :: pad n' fs'
  end.

(** The first line with more fields than the header, if any. *)
Fixpoint too_wide (width : nat) (body : list (nat * list string))
  : option (nat * nat) :=
  match body with
  | [] => None
  | (line, fs) :: body' =>
      if width <? length fs then Some (line, length fs)
      else too_wide width body'
  end.

Definition numeric_column (body : list (list string)) (j : nat) : bool :=
  forallb (fun fs => let t := nth j fs "" in is_na_token t || is_integer t)
          body.

Definition convert (numeric : bool) (t : string) : cell :=
  if is_na_token t then NaN
  else if numeric then
         match integer t with
         | Some z => Num (xint z)
         | None => Str t
         end
       else Str t.

Definition to_frame (header : list string) (body : list (list string))
  : DataFrame :=
  let width := length header in
  let padded := map (pad width) body in
  let numeric := map (numeric_column padded) (seq 0 width) in
  mkDF header
       (map (fun ifs => mkRow (fst ifs)
                              (map (fun nt => convert (fst nt) (snd nt))
                                   (combine numeric (snd ifs))))
            (combine (seq 0 (length padded)) padded)).

Definition parse (blank : string -> bool) (fields : string -> list string)
           (text : string) : exc DataFrame :=
  match numbered_lines blank text with
  | [] => Raise EmptyDataError
  | (_, head) :: body =>
      let header := fields head in
      let body' := map (fun nl => (fst nl, fields (snd nl))) body in
      match too_wide (length header) body' with
      | Some (line, saw) => Raise (ParserError (length header) line saw)
      | None => Ok (to_frame header (map snd body'))
      end
  end.

(** The text of a file given by its lines. *)
Definition file (ls : list string) : string :=
  String.concat "" (map (fun l => String.append l (String newline EmptyString)) ls).

(** Insertion into an ascending arrangement of positions; [goes_after j i]
    tells whether the new position [i] goes after [j]. *)
Fixpoint insert_by (goes_after : nat -> nat -> bool) (i : nat)
         (sorted : list nat) : list nat :=
  match sorted with
  | [] => [i]
  | j :: sorted' =>
      if goes_after j i then j :: insert_by goes_after i sorted'
      else i :: sorted
  end.

Definition argsort_by (goes_after : list cell -> nat -> nat -> bool)
           (keys : list cell) : list nat :=
  fold_left (fun sorted i => insert_by (goes_after keys) i sorted)
            (seq 0 (length keys)) [].

(** Two kernels that meet [argsort_ascends].  The first puts a key after
    the equal keys met before it (it is stable), the second puts it
    before them. *)
Definition insertion_argsort : list cell -> list nat :=
  argsort_by (fun keys j i => cell_leb (nth j keys NaN) (nth i keys NaN)).

Definition insertion_argsort_ties_first : list cell -> list nat :=
  argsort_by (fun keys j i =>
                negb (cell_leb (nth i keys NaN) (nth j keys NaN))).

#[export] Instance pandas : Pandas string := {
  read_csv text sep := parse empty_line (fields_sep sep) text;
  read_table text := parse white_line fields_ws text;
  argsort := insertion_argsort
}.

End Plain.

(** * Vocabulary of the statements *)

Section Vocabulary.

Context {Source : Type} {P : Pandas Source}.

(** ** Worlds *)

Definition with_dataset (w : World Source) (d : option DataFrame)
  : World Source :=
  mkWorld (mkProcessor (_datasource (self w)) d (result (self w))
                       (separators (self w)))
          (trace w).

Definition with_result (w : World Source) (r : option DataFrame)
  : World Source :=
  mkWorld (mkProcessor (_datasource (self w)) (_dataset (self w)) r
                       (separators (self w)))
          (trace w).

Definition logged (w : World Source) (evs : list event) : World Source :=
  mkWorld (self w) (trace w ++ evs).

(** A processor as its constructor leaves it, before any output. *)
Definition fresh_csv (datasource : Source) : World Source :=
  mkWorld (CsvDataProcessor_init datasource) [].

Definition fresh_txt (datasource : Source) : World Source :=
  mkWorld (TxtDataProcessor_init datasource) [].

(** ** The separators of [CsvDataProcessor.read] *)

Definition fixed_order : list string := [";"; ","; "|"].

(** The parse of [datasource] under [sep] completed and has at most one
    column: the loop goes on. *)
Definition narrow (datasource : Source) (sep : string) : Prop :=
  exists d, read_csv datasource sep = Ok d /\ length (columns d) <= 1.

(** The table [self._dataset] holds once the loop has gone through
    [seps] without accepting any: each completed parse replaces the one
    before, and the first parse that raises ends the loop. *)
Fixpoint loaded (datasource : Source) (seps : list string)
         (init : option DataFrame) : option DataFrame :=
  match seps with
  | [] => init
  | sep :: seps' =>
      match read_csv datasource sep with
      | Ok d => loaded datasource seps' (Some d)
      | Raise _ => init
      end
  end.

(** What [read] answers and what it leaves in [self._dataset], computed
    from the parses alone: the loop stops at the first parse with more
    than one column (answer [True]) and at the first parse that raises. *)
Fixpoint answer (datasource : Source) (seps : list string) : bool :=
  match seps with
  | [] => false
  | sep :: seps' =>
      match read_csv datasource sep with
      | Ok d => if 1 <? length (columns d) then true
                else answer datasource seps'
      | Raise _ => false
      end
  end.

Fixpoint kept (datasource : Source) (seps : list string)
         (init : option DataFrame) : option DataFrame :=
  match seps with
  | [] => init
  | sep :: seps' =>
      match read_csv datasource sep with
      | Ok d => if 1 <? length (columns d) then Some d
                else kept datasource seps' (Some d)
      | Raise _ => init
      end
  end.

End Vocabulary.

(** ** The cleaning step and the categories *)

(** One turn of the loop on the rows, for the column at position [j], and
    the whole loop for the positions [js]. *)
Definition clean_step (j : nat) (rs : list Row) : list Row :=
  dropna j (replace_inplace j rs).

Definition clean_rows (js : list nat) (rs : list Row) : list Row :=
  fold_left (fun rs j => clean_step j rs) js rs.

(** The single row-wise pass of the specification: with the empty strings
    of the table replaced by the missing marker, drop each row that has a
    missing marker in any column. *)
Definition replace_all (r : Row) : Row :=
  mkRow (label r) (map replace_empty (cells r)).

Definition complete (r : Row) : bool := forallb notna (cells r).

Definition dropna_any_rowwise (rs : list Row) : list Row :=
  filter complete (map replace_all rs).

(** A cell the cleaning step has nothing to do with. *)
Definition clean_cell (c : cell) : Prop := c <> NaN /\ c <> Str "".

Definition clean_cellb (c : cell) : bool :=
  match c with
  | NaN => false
  | Num _ => true
  | Str s => negb (String.eqb s "")
  end.

(** A row the cleaning step keeps. *)
Definition clean_row (r : Row) : bool := forallb clean_cellb (cells r).

Definition first_pos (names : list string) (i : nat) : nat :=
  match find_col (nth i names "") names with
  | Some j => j
  | None => 0
  end.

(** The rows after the cleaning loop. *)
Definition cleaned (df : DataFrame) : DataFrame :=
  mkDF (columns df)
       (clean_rows (map (first_pos (columns df))
                        (seq 0 (length (columns df))))
                   (rows df)).

(** The table after the assignment of [price_category]. *)
Definition categorized (df : DataFrame) : exc DataFrame :=
  match getitem df "selling_price" with
  | Raise e => Raise e
  | Ok x =>
      match cut x price_bins price_labels with
      | Raise e => Raise e
      | Ok categories => Ok (setitem df "price_category" categories)
      end
  end.

(** How price and category go together in one row. *)
Definition bucket_rule (v : xnum) (c : cell) : Prop :=
  (c = Num (xint 1) <-> xlt (xint 0) v /\ xle v (xint 500000)) /\
  (c = Num (xint 2) <-> xlt (xint 500000) v /\ xle v (xint 1500000)) /\
  (c = Num (xint 3) <-> xlt (xint 1500000) v) /\
  (c = NaN <-> xle v (xint 0)).

(** The rows kept by the cleaning step have their price: numbers only. *)
Definition numeric_prices (df : DataFrame) : Prop :=
  exists i,
    find_col "selling_price" (columns df) = Some i /\
    Forall (fun r => is_str (cell_at i r) = false)
           (filter clean_row (rows df)).

(** ** The order of rows *)

(** Rows compared by their cell in column [i]. *)
Definition row_le (i : nat) (a b : Row) : Prop :=
  cell_leb (cell_at i a) (cell_at i b) = true.

(** ** Sample tables *)

Definition cars : DataFrame :=
  mkDF ["name"; "selling_price"]
       [mkRow 0 [Str "Maruti"; Num (xint 600000)];
        mkRow 1 [Str ""; Num (xint 450000)];
        mkRow 2 [Str "Honda"; NaN];
        mkRow 3 [Str "Tata"; Num (xint 450000)];
        mkRow 4 [Str "Audi"; Num (xint 1500001)];
        mkRow 5 [Str "Fiat"; Num (xint 0)]].

Definition cars_clean : DataFrame :=
  mkDF ["name"; "selling_price"]
       [mkRow 0 [Str "Maruti"; Num (xint 600000)];
        mkRow 3 [Str "Tata"; Num (xint 450000)];
        mkRow 4 [Str "Audi"; Num (xint 1500001)];
        mkRow 5 [Str "Fiat"; Num (xint 0)]].

(** A processor that holds the table [df]. *)
Definition loaded_csv (df : DataFrame) : World string :=
  with_dataset (fresh_csv "") (Some df).

Definition prices_txt : string :=
  Plain.file ["selling_price x"; "5 1"; "NaN 2"; "3 3"].

Definition prices : DataFrame :=
  mkDF ["selling_price"; "x"]
       [mkRow 0 [Num (xint 5); Num (xint 1)];
        mkRow 1 [NaN; Num (xint 2)];
        mkRow 2 [Num (xint 3); Num (xint 3)]].

Definition loaded_txt (df : DataFrame) : World string :=
  with_dataset (fresh_txt prices_txt) (Some df).

(** A table without a price column, and one whose prices are text. *)
Definition cars_unpriced : DataFrame :=
  mkDF ["name"; "km_driven"]
       [mkRow 0 [Str "Maruti"; Num (xint 70000)];
        mkRow 1 [Str "Honda"; NaN]].


(** * Properties *)

(** ** Worlds *)

Section World_facts.

Context {Source : Type}.

Lemma with_dataset_same (w : World Source) :
  with_dataset w (_dataset (self w)) = w.
Proof. destruct w as [[src ds res seps] tr]; reflexivity. Qed.

Lemma logged_nil (w : World Source) : logged w [] = w.
Proof.
  destruct w as [s tr]; unfold logged; simpl; now rewrite app_nil_r.
Qed.

Lemma logged_logged (w : World Source) (a b : list event) :
  logged (logged w a) b = logged w (a ++ b).
Proof. unfold logged; simpl; now rewrite app_assoc. Qed.

End World_facts.

(** ** [CsvDataProcessor.read] *)

Section Csv_read.

Context {Source : Type} {P : Pandas Source}.

Lemma read_for_narrow (before rest : list string) (w : World Source) :
  Forall (narrow (_datasource (self w))) before ->
  read_for (before ++ rest) w =
  read_for rest
    (logged (with_dataset w (loaded (_datasource (self w)) before
                                    (_dataset (self w))))
            (map CallReadCsv before)).
Proof.
  revert w. induction before as [|sep before IH]; intros w H.
  - simpl. now rewrite with_dataset_same, logged_nil.
  - inversion H as [|? ? [d [Hd Hn]] Hrest]; subst.
    destruct w as [[src ds res seps] tr]; simpl in *.
    unfold bind at 1; simpl. unfold bind at 1; simpl.
    unfold call_read_csv, bind, emit, lift; simpl. rewrite Hd; simpl.
    replace (1 <? length (columns d)) with false
      by (symmetry; apply Nat.ltb_ge; exact Hn).
    fold (@bind Source).
    rewrite IH by exact Hrest. simpl.
    unfold logged, with_dataset; simpl.
    now rewrite <- app_assoc.
Qed.

Lemma read_for_accepts (sep : string) (rest : list string)
      (w : World Source) (df : DataFrame) :
  read_csv (_datasource (self w)) sep = Ok df ->
  1 < length (columns df) ->
  read_for (sep :: rest) w =
  (Ok (Some true),
   logged (with_dataset w (Some df))
          [CallReadCsv sep; Print (ColumnsRead (columns df) sep)]).
Proof.
  intros Hd Hwide.
  destruct w as [[src ds res seps] tr]; simpl in *.
  unfold bind at 1; simpl. unfold bind at 1; simpl.
  unfold call_read_csv, bind, emit, lift; simpl. rewrite Hd; simpl.
  replace (1 <? length (columns df)) with true
    by (symmetry; apply Nat.ltb_lt; exact Hwide).
  unfold print, emit, ret, logged, with_dataset; simpl.
  now rewrite <- app_assoc.
Qed.

Lemma read_for_raises (sep : string) (rest : list string)
      (w : World Source) (e : exn) :
  read_csv (_datasource (self w)) sep = Raise e ->
  read_for (sep :: rest) w = (Raise e, logged w [CallReadCsv sep]).
Proof.
  intros He.
  destruct w as [[src ds res seps] tr]; simpl in *.
  unfold bind at 1; simpl. unfold bind at 1; simpl.
  unfold call_read_csv, bind, emit, lift; simpl. now rewrite He.
Qed.

(** When no separator gives more than one column the loop ends without
    a [return]: it runs out of separators or a parse raises. *)
Lemma read_for_rejects (seps : list string) (w : World Source) :
  (forall sep d, In sep seps ->
                 read_csv (_datasource (self w)) sep = Ok d ->
                 length (columns d) <= 1) ->
  exists r tr,
    read_for seps w =
    (r, mkWorld (self (with_dataset
                         w (loaded (_datasource (self w)) seps
                                   (_dataset (self w))))) tr)
    /\ (r = Ok None \/ exists e, r = Raise e).
Proof.
  revert w. induction seps as [|sep seps IH]; intros w H.
  - exists (Ok None), (trace w). cbn [loaded read_for].
    rewrite with_dataset_same. destruct w; auto.
  - destruct (read_csv (_datasource (self w)) sep) as [d|e] eqn:Hd.
    + assert (Hn : narrow (_datasource (self w)) sep).
      { exists d; split; [exact Hd|]. eapply H; [now left | exact Hd]. }
      pose proof (@read_for_narrow [sep] seps w
                    (Forall_cons _ Hn (Forall_nil _))) as E.
      simpl app in E. rewrite E. simpl loaded. rewrite Hd.
      match goal with |- context [read_for seps ?w1] =>
        destruct (IH w1) as [r [tr [E1 Hr]]] end.
      { simpl. intros s d' Hs. apply H. now right. }
      exists r, tr. split; [|exact Hr]. rewrite E1.
      destruct w as [[src ds res sp] tr0]; reflexivity.
    + exists (Raise e), (trace w ++ [CallReadCsv sep]).
      rewrite (@read_for_raises sep seps w e Hd). simpl loaded.
      rewrite Hd. rewrite with_dataset_same. split; eauto.
Qed.

(** C1 (amended).  With the fixed order [';', ',', '|']: when [sep] gives
    a table of more than one column and every separator tried before it
    was parsed without an exception into at most one column, [read]
    returns [True], [self._dataset] is the parse under [sep], and the
    separators after [sep] are not tried. *)
Theorem csv_read_accepts_first_wide
        (w : World Source) (before after : list string) (sep : string)
        (df : DataFrame) :
  separators (self w) = fixed_order ->
  fixed_order = before ++ sep :: after ->
  Forall (narrow (_datasource (self w))) before ->
  read_csv (_datasource (self w)) sep = Ok df ->
  1 < length (columns df) ->
  CsvDataProcessor_read w =
  (Ok true,
   logged (with_dataset w (Some df))
          (map CallReadCsv before ++
           [CallReadCsv sep; Print (ColumnsRead (columns df) sep)])).
Proof.
  intros Hseps Hsplit Hbefore Hd Hwide.
  unfold CsvDataProcessor_read, bind at 1, try_except, bind at 1, get_self.
  rewrite Hseps, Hsplit, read_for_narrow by exact Hbefore.
  rewrite (@read_for_accepts sep after _ df).
  - destruct w as [[src ds res seps] tr]; unfold ret, logged, with_dataset;
      simpl. now rewrite <- app_assoc.
  - destruct w as [[src ds res seps] tr]; exact Hd.
  - exact Hwide.
Qed.

(** C2 (amended).  No exception leaves [read]; an exception raised by
    the parse under one separator is caught and printed, ends the loop
    (the separators after it are not tried) and makes [read] return
    [False] at once. *)
Theorem csv_read_exception_ends_detection :
  (forall w : World Source,
      exists b w', CsvDataProcessor_read w = (Ok b, w')) /\
  (forall (w : World Source) (before after : list string) (sep : string)
          (e : exn),
      separators (self w) = fixed_order ->
      fixed_order = before ++ sep :: after ->
      Forall (narrow (_datasource (self w))) before ->
      read_csv (_datasource (self w)) sep = Raise e ->
      CsvDataProcessor_read w =
      (Ok false,
       logged (with_dataset w (loaded (_datasource (self w)) before
                                      (_dataset (self w))))
              (map CallReadCsv before ++
               [CallReadCsv sep; Print (ExnText e)]))).
Proof.
  split.
  - intros w.
    unfold CsvDataProcessor_read, bind at 1, try_except.
    destruct ((s <- get_self ;; read_for (separators s)) w)
      as [[[b|]|e] w']; unfold print, emit, bind, ret; simpl; eauto.
  - intros w before after sep e Hseps Hsplit Hbefore He.
    unfold CsvDataProcessor_read, bind at 1, try_except, bind at 1, get_self.
    rewrite Hseps, Hsplit, read_for_narrow by exact Hbefore.
    rewrite (@read_for_raises sep after _ e).
    + destruct w as [[src ds res seps] tr];
        unfold print, emit, bind, ret, logged, with_dataset; simpl.
      now rewrite <- !app_assoc.
    + destruct w as [[src ds res seps] tr]; exact He.
Qed.

Lemma loaded_Some (datasource : Source) (seps : list string)
      (d : DataFrame) :
  loaded datasource seps (Some d) <> None.
Proof.
  revert d. induction seps as [|sep seps IH]; intros d; cbn [loaded].
  - discriminate.
  - destruct (read_csv datasource sep) as [d'|e]; [apply IH | discriminate].
Qed.

(** C5 (amended).  When no separator of the fixed order gives more than
    one column, [read] returns [False], leaves [self.result] untouched
    and leaves in [self._dataset] the last table it parsed without an
    exception: the dataset is as before the call when the parse under
    [';'] raised, and it is the one-column parse under ['|'] when all
    three parses completed.  On a processor whose Dataset was absent, the
    Dataset remains absent exactly when the parse under [';'] raised. *)
Theorem csv_read_rejects_all (w : World Source) :
  separators (self w) = fixed_order ->
  (forall sep d, In sep fixed_order ->
                 read_csv (_datasource (self w)) sep = Ok d ->
                 length (columns d) <= 1) ->
  exists w',
    CsvDataProcessor_read w = (Ok false, w') /\
    self w' = self (with_dataset
                      w (loaded (_datasource (self w)) fixed_order
                                (_dataset (self w)))) /\
    (forall e, read_csv (_datasource (self w)) ";" = Raise e ->
               _dataset (self w') = _dataset (self w)) /\
    (forall d1 d2 d3,
        read_csv (_datasource (self w)) ";" = Ok d1 ->
        read_csv (_datasource (self w)) "," = Ok d2 ->
        read_csv (_datasource (self w)) "|" = Ok d3 ->
        _dataset (self w') = Some d3) /\
    (_dataset (self w) = None ->
     (_dataset (self w') = None <->
      exists e, read_csv (_datasource (self w)) ";" = Raise e)).
Proof.
  intros Hseps Hnone.
  destruct (read_for_rejects fixed_order w Hnone) as [r [tr [E Hr]]].
  assert (Hread : CsvDataProcessor_read w =
                  (Ok false,
                   mkWorld (self (with_dataset
                                    w (loaded (_datasource (self w))
                                              fixed_order
                                              (_dataset (self w)))))
                           (match r with
                            | Ok _ => tr
                            | Raise e => tr ++ [Print (ExnText e)]
                            end))).
  { unfold CsvDataProcessor_read, bind at 1, try_except, bind at 1,
      get_self.
    rewrite Hseps, E.
    destruct Hr as [-> | [e ->]]; reflexivity. }
  eexists; split; [exact Hread|]. split; [reflexivity|].
  split; [|split].
  - intros e He. simpl. now rewrite He.
  - intros d1 d2 d3 H1 H2 H3. simpl. now rewrite H1, H2, H3.
  - intros Habsent.
    cbn [self with_dataset _dataset fixed_order loaded].
    destruct (read_csv (_datasource (self w)) ";") as [d|e] eqn:H1.
    + split.
      * intros Hl. exfalso.
        exact (@loaded_Some (_datasource (self w)) [","; "|"] d Hl).
      * intros [e He]. discriminate.
    + rewrite Habsent. split; [eauto | reflexivity].
Qed.

End Csv_read.

(** The three theorems on the scenarios, with [Plain] for pandas. *)

Lemma csv_read_accepts_first_wide_witness :
  CsvDataProcessor_read (P := Plain.pandas)
                        (fresh_csv (Plain.file ["a,b"; "1,2"; "3,4"])) =
  (Ok true,
   mkWorld (mkProcessor
              (Plain.file ["a,b"; "1,2"; "3,4"])
              (Some (mkDF ["a"; "b"]
                          [mkRow 0 [Num (xint 1); Num (xint 2)];
                           mkRow 1 [Num (xint 3); Num (xint 4)]]))
              None fixed_order)
           [CallReadCsv ";"; CallReadCsv ",";
            Print (ColumnsRead ["a"; "b"] ",")]).
Proof.
  apply (@csv_read_accepts_first_wide
           string Plain.pandas
           (fresh_csv (Plain.file ["a,b"; "1,2"; "3,4"]))
           [";"] ["|"] ","
           (mkDF ["a"; "b"]
                 [mkRow 0 [Num (xint 1); Num (xint 2)];
                  mkRow 1 [Num (xint 3); Num (xint 4)]])).
  - reflexivity.
  - reflexivity.
  - constructor; [|constructor].
    eexists; split; [vm_compute; reflexivity | simpl; lia].
  - vm_compute; reflexivity.
  - simpl; lia.
Defined.

(** The scenario of the specification: ["a;b\n1;2\n3;4\n"] is read with
    [';'] and reports the columns [a] and [b]. *)
Example csv_read_scenario :
  CsvDataProcessor_read (P := Plain.pandas)
                        (fresh_csv (Plain.file ["a;b"; "1;2"; "3;4"])) =
  (Ok true,
   mkWorld (mkProcessor
              (Plain.file ["a;b"; "1;2"; "3;4"])
              (Some (mkDF ["a"; "b"]
                          [mkRow 0 [Num (xint 1); Num (xint 2)];
                           mkRow 1 [Num (xint 3); Num (xint 4)]]))
              None fixed_order)
           [CallReadCsv ";"; Print (ColumnsRead ["a"; "b"] ";")]).
Proof. vm_compute; reflexivity. Qed.

(** C1 as stated fails: in this file the third line has two fields under
    [';'] where the header has one, so the parse under [';'] raises; [',']
    gives two columns, yet [read] returns [False] and keeps no table. *)
Lemma csv_read_misses_later_separator :
  let src := Plain.file ["a,b"; "1,2"; "3;4,5"] in
  In "," fixed_order /\
  (exists df, read_csv (Pandas := Plain.pandas) src "," = Ok df /\
              1 < length (columns df)) /\
  fst (CsvDataProcessor_read (P := Plain.pandas) (fresh_csv src)) = Ok false /\
  _dataset (self (snd (CsvDataProcessor_read (P := Plain.pandas)
                                             (fresh_csv src)))) = None.
Proof.
  cbv zeta. split; [right; left; reflexivity|]. split.
  - eexists; split; [vm_compute; reflexivity | simpl; lia].
  - split; vm_compute; reflexivity.
Qed.

Lemma csv_read_exception_ends_detection_witness :
  CsvDataProcessor_read (P := Plain.pandas)
                        (fresh_csv (Plain.file ["a,b"; "1,2"; "3;4,5"])) =
  (Ok false,
   mkWorld (CsvDataProcessor_init (Plain.file ["a,b"; "1,2"; "3;4,5"]))
           [CallReadCsv ";"; Print (ExnText (ParserError 1 3 2))]).
Proof.
  apply (proj2 (@csv_read_exception_ends_detection string Plain.pandas)
               (fresh_csv (Plain.file ["a,b"; "1,2"; "3;4,5"]))
               [] [","; "|"] ";" (ParserError 1 3 2)).
  - reflexivity.
  - reflexivity.
  - constructor.
  - vm_compute; reflexivity.
Defined.

(** C2 as stated fails: the parse under [';'] raises, the loop does not go
    on to [','] and ['|'] (which would give two columns), and [read]
    returns [False] after a single failure. *)
Lemma csv_read_stops_at_first_exception :
  let src := Plain.file ["x|y"; "1|2"; "3;4|5"] in
  read_csv (Pandas := Plain.pandas) src ";" = Raise (ParserError 1 3 2) /\
  (exists df, read_csv (Pandas := Plain.pandas) src "|" = Ok df /\
              1 < length (columns df)) /\
  CsvDataProcessor_read (P := Plain.pandas) (fresh_csv src) =
  (Ok false,
   logged (fresh_csv src)
          [CallReadCsv ";"; Print (ExnText (ParserError 1 3 2))]).
Proof.
  cbv zeta. split; [vm_compute; reflexivity|]. split.
  - eexists; split; [vm_compute; reflexivity | simpl; lia].
  - vm_compute; reflexivity.
Qed.

Lemma csv_read_rejects_all_witness :
  exists w',
    CsvDataProcessor_read (P := Plain.pandas)
                          (fresh_csv (Plain.file ["a"; "1"])) =
    (Ok false, w').
Proof.
  destruct (@csv_read_rejects_all string Plain.pandas
                                  (fresh_csv (Plain.file ["a"; "1"])))
    as [w' [E _]].
  - reflexivity.
  - intros sep d [<-|[<-|[<-|[]]]] H; vm_compute in H;
      injection H as <-; simpl; lia.
  - exists w'; exact E.
Defined.

(** C5 as stated fails: every separator gives the single column [a], [read]
    returns [False], and [self._dataset] is no longer absent: it holds the
    one-column table parsed last. *)
Lemma csv_read_failure_keeps_last_parse :
  let src := Plain.file ["a"; "1"] in
  (forall sep d, In sep fixed_order ->
                 read_csv (Pandas := Plain.pandas) src sep = Ok d ->
                 length (columns d) <= 1) /\
  _dataset (self (fresh_csv src)) = None /\
  fst (CsvDataProcessor_read (P := Plain.pandas) (fresh_csv src)) = Ok false /\
  _dataset (self (snd (CsvDataProcessor_read (P := Plain.pandas)
                                             (fresh_csv src)))) =
  Some (mkDF ["a"] [mkRow 0 [Num (xint 1)]]).
Proof.
  cbv zeta. split.
  - intros sep d [<-|[<-|[<-|[]]]] H; vm_compute in H;
      injection H as <-; simpl; lia.
  - split; [reflexivity|]. split; vm_compute; reflexivity.
Qed.

(** ** [TxtDataProcessor.read] *)

Section Txt_read.

Context {Source : Type} {P : Pandas Source}.

Lemma read_whitespace_table_ok (w : World Source) (df : DataFrame) :
  read_table (_datasource (self w)) = Ok df ->
  read_whitespace_table w =
  (Ok (2 <=? length (columns df)),
   logged (with_dataset w (Some df)) [CallReadTable]).
Proof.
  intros Hd. destruct w as [[src ds res seps] tr]; simpl in *.
  unfold read_whitespace_table, bind at 1; simpl.
  unfold call_read_table, bind, emit, lift; simpl. rewrite Hd; simpl.
  unfold logged, with_dataset; simpl.
  destruct (length (columns df)) as [|[|n]]; reflexivity.
Qed.

Lemma read_whitespace_table_raises (w : World Source) (e : exn) :
  read_table (_datasource (self w)) = Raise e ->
  read_whitespace_table w = (Raise e, logged w [CallReadTable]).
Proof.
  intros He. destruct w as [[src ds res seps] tr]; simpl in *.
  unfold read_whitespace_table, bind at 1; simpl.
  unfold call_read_table, bind, emit, lift; simpl. now rewrite He.
Qed.

(** The lab4_5 version does what its docstring says: it parses the
    source, keeps the table, and answers whether it has at least two
    columns; an exception of the parser is printed and answered with
    [False]. *)
Theorem lab4_5_txt_read_spec (w : World Source) :
  match read_table (_datasource (self w)) with
  | Ok df =>
      Lab4_5.TxtDataProcessor_read w =
      (Ok (2 <=? length (columns df)),
       logged (with_dataset w (Some df)) [CallReadTable])
  | Raise e =>
      Lab4_5.TxtDataProcessor_read w =
      (Ok false, logged w [CallReadTable; Print (ExnText e)])
  end.
Proof.
  destruct (read_table (_datasource (self w))) as [df|e] eqn:Hd;
    unfold Lab4_5.TxtDataProcessor_read, try_except.
  - now rewrite (read_whitespace_table_ok w Hd).
  - rewrite (read_whitespace_table_raises w Hd).
    unfold print, emit, bind, ret, logged; simpl.
    now rewrite <- app_assoc.
Qed.

(** In the lab3 version the test [if self._dataset.isna()] raises
    whatever [self._dataset] holds, so [read] answers [False] in every
    state and the parser is never entered. *)
Lemma lab3_txt_read_always_false (w : World Source) :
  exists e,
    Lab3.TxtDataProcessor_read w =
    (Ok false, logged w [Print (ExnText e)]).
Proof.
  destruct w as [[src [df|] res seps] tr];
    eexists; unfold Lab3.TxtDataProcessor_read, try_except; simpl;
    reflexivity.
Qed.

(** C10.  While the dataset is absent, as on a freshly constructed
    processor, the lab3 [TxtDataProcessor.read] returns [False] for every
    source: calling [isna] on the absent dataset raises [AttributeError]
    before the file is parsed, and the handler prints it and answers
    [False]; the processor is left as it was. *)
Theorem lab3_txt_read_fresh_false (w : World Source) :
  _dataset (self w) = None ->
  Lab3.TxtDataProcessor_read w =
  (Ok false,
   logged w [Print (ExnText (AttributeError
                               "'NoneType' object has no attribute 'isna'"))]).
Proof.
  destruct w as [[src ds res seps] tr]; cbn [self _dataset].
  intros ->.
  unfold Lab3.TxtDataProcessor_read, try_except, Lab3.dataset_isna.
  unfold bind at 1, bind at 1, dataset_attr, the_dataset; cbn [self _dataset].
  reflexivity.
Qed.

End Txt_read.

Lemma lab3_txt_read_fresh_false_witness :
  Lab3.TxtDataProcessor_read (P := Plain.pandas)
                             (fresh_txt (Plain.file ["a"; "1"])) =
  (Ok false,
   mkWorld (TxtDataProcessor_init (Plain.file ["a"; "1"]))
           [Print (ExnText (AttributeError
                              "'NoneType' object has no attribute 'isna'"))]).
Proof.
  exact (@lab3_txt_read_fresh_false
           string Plain.pandas (fresh_txt (Plain.file ["a"; "1"])) eq_refl).
Defined.

(** The scenarios of the specification on the lab4_5 version. *)
Example lab4_5_txt_read_two_columns :
  fst (Lab4_5.TxtDataProcessor_read (P := Plain.pandas)
                                    (fresh_txt (Plain.file ["a b"; "1 2"])))
  = Ok true.
Proof. vm_compute; reflexivity. Qed.

Example lab4_5_txt_read_one_column :
  fst (Lab4_5.TxtDataProcessor_read (P := Plain.pandas)
                                    (fresh_txt (Plain.file ["a"; "1"])))
  = Ok false.
Proof. vm_compute; reflexivity. Qed.

(** C6 on the lab3 version: the text ["a b\n1 2\n"] parses into the two
    columns [a] and [b], and [read] still answers [False], without
    entering the parser and without keeping a table. *)
Theorem lab3_txt_read_scenario_false :
  let src := Plain.file ["a b"; "1 2"] in
  read_table (Pandas := Plain.pandas) src =
  Ok (mkDF ["a"; "b"] [mkRow 0 [Num (xint 1); Num (xint 2)]]) /\
  Lab3.TxtDataProcessor_read (P := Plain.pandas) (fresh_txt src) =
  (Ok false,
   mkWorld (TxtDataProcessor_init src)
           [Print (ExnText (AttributeError
                              "'NoneType' object has no attribute 'isna'"))])
  /\
  fst (Lab4_5.TxtDataProcessor_read (P := Plain.pandas) (fresh_txt src))
  = Ok true.
Proof. cbv zeta. repeat split; vm_compute; reflexivity. Qed.

(** ** The cleaning step of [CsvDataProcessor.run] *)

Section Lists.

Lemma find_col_lt (c : string) (names : list string) (j : nat) :
  find_col c names = Some j -> j < length names.
Proof.
  revert j. induction names as [|c' names IH]; intros j; simpl.
  - discriminate.
  - destruct (String.eqb c c').
    + intros [= <-]. lia.
    + destruct (find_col c names) as [k|]; simpl; [|discriminate].
      intros [= <-]. specialize (IH k eq_refl). lia.
Qed.

Lemma find_col_nth (names : list string) (i : nat) :
  i < length names -> find_col (nth i names "") names <> None.
Proof.
  revert i. induction names as [|c names IH]; intros i Hi; simpl in *.
  - lia.
  - destruct i as [|i].
    + now rewrite String.eqb_refl.
    + destruct (String.eqb (nth i names "") c); [discriminate|].
      specialize (IH i ltac:(lia)).
      destruct (find_col (nth i names "") names); [discriminate|easy].
Qed.

Lemma find_col_In (c : string) (names : list string) :
  find_col c names = None -> ~ In c names.
Proof.
  induction names as [|c' names IH]; simpl; [tauto|].
  destruct (String.eqb_spec c c') as [->|Hne]; [discriminate|].
  destruct (find_col c names); [discriminate|].
  intros _ [E|Hin]; [congruence | now apply IH].
Qed.

Lemma find_col_nth_NoDup (names : list string) (i : nat) :
  NoDup names -> i < length names ->
  find_col (nth i names "") names = Some i.
Proof.
  intros Hnd. revert i.
  induction Hnd as [|c names Hnotin Hnd IH]; intros i Hi; simpl in *.
  - lia.
  - destruct i as [|i].
    + now rewrite String.eqb_refl.
    + destruct (String.eqb_spec (nth i names "") c) as [E|_].
      * exfalso. apply Hnotin. rewrite <- E. apply nth_In. lia.
      * now rewrite IH by lia.
Qed.

Lemma first_pos_NoDup (names : list string) :
  NoDup names ->
  map (first_pos names) (seq 0 (length names)) = seq 0 (length names).
Proof.
  intros Hnd. rewrite <- (map_id (seq 0 (length names))) at 2.
  apply map_ext_in. intros i Hi. apply in_seq in Hi.
  unfold first_pos. now rewrite find_col_nth_NoDup by (auto; lia).
Qed.

Lemma set_nth_same {A : Type} (d : A) (j : nat) (l : list A) :
  set_nth j (nth j l d) l = l.
Proof.
  revert j. induction l as [|x l IH]; intros [|j]; simpl; try reflexivity.
  now rewrite IH.
Qed.

Lemma set_nth_middle {A : Type} (pre : list A) (x y : A) (tl : list A) :
  set_nth (length pre) y (pre ++ x :: tl) = pre ++ y :: tl.
Proof.
  induction pre as [|p pre IH]; simpl; [reflexivity | now rewrite IH].
Qed.

Lemma set_nth_length {A : Type} (j : nat) (v : A) (l : list A) :
  length (set_nth j v l) = length l.
Proof.
  revert j. induction l as [|x l IH]; intros [|j]; simpl; auto.
Qed.

Lemma nth_set_nth {A : Type} (d : A) (j : nat) (v : A) (l : list A) :
  j < length l -> nth j (set_nth j v l) d = v.
Proof.
  revert j. induction l as [|x l IH]; intros [|j] H; simpl in *;
    try lia; auto. apply IH. lia.
Qed.

Lemma nth_set_nth_other {A : Type} (d : A) (i j : nat) (v : A)
      (l : list A) :
  i <> j -> nth i (set_nth j v l) d = nth i l d.
Proof.
  revert i j. induction l as [|x l IH]; intros [|i] [|j] H; simpl;
    try reflexivity; try lia. apply IH. lia.
Qed.

End Lists.

Section Clean_rows.

Lemma clean_step_app (j : nat) (a b : list Row) :
  clean_step j (a ++ b) = clean_step j a ++ clean_step j b.
Proof.
  unfold clean_step, dropna, replace_inplace.
  now rewrite map_app, filter_app.
Qed.

Lemma clean_rows_app (js : list nat) (a b : list Row) :
  clean_rows js (a ++ b) = clean_rows js a ++ clean_rows js b.
Proof.
  revert a b. induction js as [|j js IH]; intros a b; simpl.
  - reflexivity.
  - fold (clean_rows js (clean_step j (a ++ b))).
    rewrite clean_step_app. apply IH.
Qed.

Lemma clean_rows_nil (js : list nat) : clean_rows js [] = [].
Proof. induction js as [|j js IH]; simpl; auto. Qed.

Lemma clean_rows_cons (j : nat) (js : list nat) (rs : list Row) :
  clean_rows (j :: js) rs = clean_rows js (clean_step j rs).
Proof. reflexivity. Qed.

Lemma clean_step_one (lbl : nat) (pre : list cell) (c : cell)
      (tl : list cell) :
  clean_step (length pre) [mkRow lbl (pre ++ c :: tl)] =
  if notna (replace_empty c)
  then [mkRow lbl (pre ++ replace_empty c :: tl)]
  else [].
Proof.
  unfold clean_step, replace_inplace, dropna, iloc_set, cell_at.
  cbn [map cells label filter].
  rewrite app_nth2, Nat.sub_diag by lia. cbn [nth].
  rewrite set_nth_middle.
  rewrite app_nth2, Nat.sub_diag by lia. cbn [nth].
  reflexivity.
Qed.

(** The loop on one row, seen from the column it has reached. *)
Lemma clean_rows_one (lbl : nat) (tl pre : list cell) :
  clean_rows (seq (length pre) (length tl)) [mkRow lbl (pre ++ tl)] =
  if forallb notna (map replace_empty tl)
  then [mkRow lbl (pre ++ map replace_empty tl)]
  else [].
Proof.
  revert pre. induction tl as [|c tl IH]; intros pre.
  - reflexivity.
  - cbn [length seq map forallb].
    rewrite clean_rows_cons, clean_step_one.
    destruct (notna (replace_empty c)); cbn [andb].
    + replace (pre ++ replace_empty c :: tl)
        with ((pre ++ [replace_empty c]) ++ tl)
        by (now rewrite <- app_assoc).
      replace (S (length pre)) with (length (pre ++ [replace_empty c]))
        by (rewrite length_app; simpl; lia).
      rewrite IH. now rewrite <- app_assoc.
    + apply clean_rows_nil.
Qed.

Lemma clean_rows_rowwise (n : nat) (rs : list Row) :
  wf_rows n rs -> clean_rows (seq 0 n) rs = dropna_any_rowwise rs.
Proof.
  induction 1 as [|r rs Hr Hrs IH].
  - apply clean_rows_nil.
  - change (r :: rs) with ([r] ++ rs) at 1.
    rewrite clean_rows_app, IH.
    destruct r as [lbl cs]; simpl in Hr; subst n.
    pose proof (clean_rows_one lbl cs []) as E. simpl in E. rewrite E.
    unfold dropna_any_rowwise, complete, replace_all; simpl.
    destruct (forallb notna (map replace_empty cs)); reflexivity.
Qed.

Lemma clean_step_clean (j n : nat) (rs : list Row) :
  j < n -> wf_rows n rs ->
  (forall r, In r rs -> Forall clean_cell (cells r)) ->
  clean_step j rs = rs.
Proof.
  intros Hj Hwf Hclean. unfold clean_step, dropna, replace_inplace.
  induction Hwf as [|r rs Hr Hrs IH]; [reflexivity|].
  assert (Hc : clean_cell (cell_at j r)).
  { pose proof (Hclean r (or_introl eq_refl)) as Hall.
    rewrite Forall_forall in Hall. apply Hall.
    unfold cell_at. apply nth_In. lia. }
  assert (Hrep : replace_empty (cell_at j r) = cell_at j r).
  { destruct Hc as [_ Hne]. destruct (cell_at j r) as [|x|s]; simpl; auto.
    destruct (String.eqb_spec s ""); [subst; congruence | reflexivity]. }
  assert (Hrow : iloc_set j (replace_empty (cell_at j r)) r = r).
  { rewrite Hrep. unfold iloc_set, cell_at. rewrite set_nth_same.
    now destruct r. }
  assert (Hkeep : notna (cell_at j r) = true).
  { destruct Hc as [Hna _].
    destruct (cell_at j r); [congruence | reflexivity | reflexivity]. }
  cbn [map filter]. rewrite Hrow, Hkeep. f_equal.
  apply IH. intros r' Hin. apply Hclean. now right.
Qed.

Lemma clean_rows_clean (js : list nat) (n : nat) (rs : list Row) :
  Forall (fun j => j < n) js -> wf_rows n rs ->
  (forall r, In r rs -> Forall clean_cell (cells r)) ->
  clean_rows js rs = rs.
Proof.
  intros Hjs Hwf Hclean. induction Hjs as [|j js Hj Hjs IH]; simpl.
  - reflexivity.
  - rewrite (@clean_step_clean j n rs) by assumption. exact IH.
Qed.

End Clean_rows.

Section Cleaning.

Context {Source : Type}.

Lemma bind_ok {A B : Type} (m : M Source A) (k : A -> M Source B)
      (w w' : World Source) (a : A) :
  m w = (Ok a, w') -> bind m k w = k a w'.
Proof. unfold bind. now intros ->. Qed.

Lemma bind_raise {A B : Type} (m : M Source A) (k : A -> M Source B)
      (w w' : World Source) (e : exn) :
  m w = (Raise e, w') -> bind m k w = (Raise e, w').
Proof. unfold bind. now intros ->. Qed.

Lemma the_dataset_some (e : exn) (w : World Source) (df : DataFrame) :
  _dataset (self w) = Some df -> the_dataset e w = (Ok df, w).
Proof. unfold the_dataset. now intros ->. Qed.

Lemma dataset_attr_some (attr : string) (w : World Source)
      (df : DataFrame) :
  _dataset (self w) = Some df -> dataset_attr attr w = (Ok df, w).
Proof. apply the_dataset_some. Qed.

Lemma dataset_subscript_some (w : World Source) (df : DataFrame) :
  _dataset (self w) = Some df -> dataset_subscript w = (Ok df, w).
Proof. apply the_dataset_some. Qed.

Lemma with_dataset_twice (w : World Source) (a b : option DataFrame) :
  with_dataset (with_dataset w a) b = with_dataset w b.
Proof. reflexivity. Qed.

Lemma replace_column_run (c : string) (j : nat) (names : list string)
      (rs : list Row) (w : World Source) :
  _dataset (self w) = Some (mkDF names rs) ->
  find_col c names = Some j ->
  replace_column c w =
  (Ok tt, with_dataset w (Some (mkDF names (replace_inplace j rs)))).
Proof.
  intros Hd Hj. unfold replace_column.
  rewrite (bind_ok _ _ _ (dataset_subscript_some w Hd)). cbn [columns rows].
  now rewrite Hj.
Qed.

Lemma dropna_column_run (c : string) (j : nat) (names : list string)
      (rs : list Row) (w : World Source) :
  _dataset (self w) = Some (mkDF names rs) ->
  find_col c names = Some j ->
  dropna_column c w =
  (Ok tt, with_dataset w (Some (mkDF names (dropna j rs)))).
Proof.
  intros Hd Hj. unfold dropna_column.
  rewrite (bind_ok _ _ _ (dataset_attr_some _ w Hd)). cbn [columns rows].
  now rewrite Hj.
Qed.

Lemma clean_for_run (names : list string) (range : list nat) :
  forall (rs : list Row) (w : World Source),
    Forall (fun i => i < length names) range ->
    _dataset (self w) = Some (mkDF names rs) ->
    clean_for names range w =
    (Ok tt,
     with_dataset
       w (Some (mkDF names (clean_rows (map (first_pos names) range) rs)))).
Proof.
  induction range as [|i range IH]; intros rs w Hrange Hd.
  - simpl. rewrite <- Hd. now rewrite with_dataset_same.
  - inversion Hrange as [|? ? Hi Hrange']; subst.
    assert (Hj : find_col (nth i names "") names
                 = Some (first_pos names i)).
    { unfold first_pos.
      destruct (find_col (nth i names "") names) eqn:E; [reflexivity|].
      now apply find_col_nth in Hi. }
    cbn [clean_for map].
    rewrite (bind_ok _ _ _ (replace_column_run _ w Hd Hj)).
    rewrite (bind_ok _ _ _
               (@dropna_column_run
                  _ _ names (replace_inplace (first_pos names i) rs)
                  (with_dataset w _) eq_refl Hj)).
    rewrite (IH (clean_step (first_pos names i) rs)); auto.
Qed.

Lemma cleaning_run (w : World Source) (df : DataFrame) :
  _dataset (self w) = Some df ->
  cleaning w =
  (Ok tt,
   with_dataset
     w (Some (mkDF (columns df)
                   (clean_rows (map (first_pos (columns df))
                                    (seq 0 (length (columns df))))
                               (rows df))))).
Proof.
  intros Hd. unfold cleaning.
  rewrite (bind_ok _ _ _ (dataset_attr_some _ w Hd)).
  apply clean_for_run.
  - apply Forall_forall. intros i Hi. apply in_seq in Hi. lia.
  - rewrite Hd. now destruct df.
Qed.

(** C7.  On every table (one cell per column in each row, distinct
    column names) the column-by-column loop of [run] leaves exactly the
    rows, in their order and with their labels, that the single
    row-wise pass leaves: those with no missing marker in any column
    once empty strings count as missing. *)
Theorem cleaning_is_rowwise (w : World Source) (df : DataFrame) :
  _dataset (self w) = Some df ->
  wf_df df ->
  cleaning w =
  (Ok tt,
   with_dataset
     w (Some (mkDF (columns df) (dropna_any_rowwise (rows df))))).
Proof.
  intros Hd [Hnd Hwf].
  rewrite (cleaning_run w Hd).
  now rewrite first_pos_NoDup, (clean_rows_rowwise Hwf).
Qed.

(** C8.  On a table that is already clean (every row has its cells, none
    of them an empty string or a missing marker) the cleaning step
    changes nothing: no row is dropped and the processor is as before. *)
Theorem cleaning_keeps_clean (w : World Source) (df : DataFrame) :
  _dataset (self w) = Some df ->
  wf_rows (length (columns df)) (rows df) ->
  (forall r, In r (rows df) -> Forall clean_cell (cells r)) ->
  cleaning w = (Ok tt, w).
Proof.
  intros Hd Hwf Hclean.
  rewrite (cleaning_run w Hd).
  rewrite (@clean_rows_clean _ (length (columns df)) (rows df)); auto.
  - replace (mkDF (columns df) (rows df)) with df by (now destruct df).
    rewrite <- Hd. now rewrite with_dataset_same.
  - apply Forall_forall. intros j Hj. apply in_map_iff in Hj.
    destruct Hj as [i [<- Hi]]. apply in_seq in Hi.
    unfold first_pos.
    destruct (find_col (nth i (columns df) "") (columns df)) eqn:E.
    + eapply find_col_lt; eauto.
    + lia.
Qed.

(** Cleaning twice is cleaning once. *)
Lemma dropna_any_rowwise_idempotent (rs : list Row) :
  dropna_any_rowwise (dropna_any_rowwise rs) = dropna_any_rowwise rs.
Proof.
  unfold dropna_any_rowwise.
  induction rs as [|r rs IH]; [reflexivity|]. cbn [map filter].
  destruct (complete (replace_all r)) eqn:E; [|exact IH].
  cbn [map filter].
  assert (Hsame : replace_all (replace_all r) = replace_all r).
  { unfold replace_all; simpl. f_equal. rewrite map_map.
    apply map_ext. intros [|x|s]; simpl; auto.
    destruct (String.eqb s "") eqn:Es; simpl; [reflexivity | now rewrite Es]. }
  rewrite Hsame, E. now rewrite IH.
Qed.

End Cleaning.

Lemma wf_cars : wf_df cars.
Proof.
  split.
  - repeat constructor; simpl; intuition discriminate.
  - repeat constructor.
Qed.

Lemma cleaning_is_rowwise_witness :
  cleaning (loaded_csv cars) = (Ok tt, loaded_csv cars_clean).
Proof.
  exact (@cleaning_is_rowwise string (loaded_csv cars) cars eq_refl wf_cars).
Defined.

Lemma cleaning_keeps_clean_witness :
  cleaning (loaded_csv cars_clean) = (Ok tt, loaded_csv cars_clean).
Proof.
  apply (@cleaning_keeps_clean string (loaded_csv cars_clean) cars_clean).
  - reflexivity.
  - repeat constructor.
  - intros r [<-|[<-|[<-|[<-|[]]]]];
      repeat constructor; discriminate.
Defined.

(** ** The order on numbers and the price categories *)

Section Order.

Lemma xltb_Fin_lt (p q : Q) : (p < q)%Q -> xltb (Fin p) (Fin q) = true.
Proof.
  intros H. simpl. apply negb_true_iff.
  destruct (Qle_bool q p) eqn:E; [|reflexivity].
  apply Qle_bool_iff in E. lra.
Qed.

Lemma xltb_Fin_ge (p q : Q) : (q <= p)%Q -> xltb (Fin p) (Fin q) = false.
Proof.
  intros H. simpl. apply negb_false_iff. now apply Qle_bool_iff.
Qed.

Lemma xlt_Fin (p q : Q) : xlt (Fin p) (Fin q) <-> (p < q)%Q.
Proof.
  unfold xlt. split.
  - intros H. destruct (Qlt_le_dec p q) as [|Hge]; [assumption|].
    rewrite (xltb_Fin_ge Hge) in H. discriminate.
  - apply xltb_Fin_lt.
Qed.

Lemma xle_Fin (p q : Q) : xle (Fin p) (Fin q) <-> (p <= q)%Q.
Proof.
  unfold xle, xleb. rewrite negb_true_iff. split.
  - intros H. destruct (Qlt_le_dec q p) as [Hlt|]; [|assumption].
    rewrite (xltb_Fin_lt Hlt) in H. discriminate.
  - apply xltb_Fin_ge.
Qed.

Lemma xltb_asym (a b : xnum) : xltb a b = true -> xltb b a = false.
Proof.
  destruct a as [|p|], b as [|q|]; simpl; try congruence.
  rewrite negb_true_iff, negb_false_iff. intros H.
  apply Qle_bool_iff. destruct (Qlt_le_dec q p) as [Hlt|]; [|assumption].
  assert (Hle : (q <= p)%Q) by lra.
  apply Qle_bool_iff in Hle. congruence.
Qed.

Lemma xleb_total (a b : xnum) : xleb a b = false -> xleb b a = true.
Proof.
  unfold xleb. rewrite negb_false_iff, negb_true_iff. apply xltb_asym.
Qed.

Lemma cell_leb_total (a b : cell) :
  (is_num a = true /\ is_num b = true) \/
  (is_str a = true /\ is_str b = true) ->
  cell_leb a b = false -> cell_leb b a = true.
Proof.
  destruct a as [|x|s], b as [|y|t]; simpl;
    intros [[? ?]|[? ?]]; try discriminate.
  - apply xleb_total.
  - intros Hst. destruct (String.leb_total s t) as [E|E]; congruence.
Qed.

End Order.

Section Categories.

(** The bucket of one price, as [pandas.cut] computes it with the
    literals of [run]: 1 on (0, 500000], 2 on (500000, 1500000], 3 above
    1500000 (the infinite price included), none at or below 0. *)
Lemma price_category_spec (v : xnum) :
  exists c,
    price_category (Num v) = Ok c /\
    (c = Num (xint 1) <-> xlt (xint 0) v /\ xle v (xint 500000)) /\
    (c = Num (xint 2) <-> xlt (xint 500000) v /\ xle v (xint 1500000)) /\
    (c = Num (xint 3) <-> xlt (xint 1500000) v) /\
    (c = NaN <-> xle v (xint 0)).
Proof.
  destruct v as [|q|].
  - exists NaN. split; [reflexivity|].
    repeat split; try discriminate; try (now intros [? ?]); auto.
  - unfold price_category, cut_cell, price_bins, price_labels, xint.
    cbn [searchsorted_left length].
    destruct (Qlt_le_dec (inject_Z 0) q) as [H0|H0].
    2:{ rewrite (xltb_Fin_ge H0). exists NaN. split; [reflexivity|].
        rewrite !xlt_Fin, !xle_Fin.
        repeat split; try discriminate; auto;
          try (intros; exfalso; unfold inject_Z in *; lra). }
    rewrite (xltb_Fin_lt H0).
    destruct (Qlt_le_dec (inject_Z 500000) q) as [H1|H1].
    2:{ rewrite (xltb_Fin_ge H1). exists (Num (Fin (inject_Z 1))).
        split; [reflexivity|].
        rewrite !xlt_Fin, !xle_Fin.
        repeat split; try discriminate; auto;
          try (intros; exfalso; unfold inject_Z in *; lra). }
    rewrite (xltb_Fin_lt H1).
    destruct (Qlt_le_dec (inject_Z 1500000) q) as [H2|H2].
    2:{ rewrite (xltb_Fin_ge H2). exists (Num (Fin (inject_Z 2))).
        split; [reflexivity|].
        rewrite !xlt_Fin, !xle_Fin.
        repeat split; try discriminate; auto;
          try (intros; exfalso; unfold inject_Z in *; lra). }
    rewrite (xltb_Fin_lt H2).
    exists (Num (Fin (inject_Z 3))). split; [reflexivity|].
    rewrite !xlt_Fin, !xle_Fin.
    repeat split; try discriminate; auto;
      try (intros; exfalso; unfold inject_Z in *; lra).
  - exists (Num (xint 3)). split; [reflexivity|].
    repeat split; try discriminate; try (now intros [? ?]); auto.
Qed.


End Categories.

(** ** [sort_values] *)

Section Take.

Context {A : Type}.
Variable d : A.

Lemma nth_shift (x : A) (l : list A) (a k : nat) :
  S a <= k -> nth (k - a) (x :: l) d = nth (k - S a) l d.
Proof.
  intros H. replace (k - a) with (S (k - S a)) by lia. reflexivity.
Qed.

Lemma take_filter_seq_from (f : A -> bool) (l : list A) (a : nat) :
  map (fun k => nth (k - a) l d)
      (filter (fun k => f (nth (k - a) l d)) (seq a (length l)))
  = filter f l.
Proof.
  revert a. induction l as [|x l IH]; intros a; [reflexivity|].
  cbn [length seq filter]. rewrite Nat.sub_diag. cbn [nth].
  assert (E : map (fun k => nth (k - a) (x :: l) d)
                  (filter (fun k => f (nth (k - a) (x :: l) d))
                          (seq (S a) (length l)))
              = filter f l).
  { rewrite <- (IH (S a)).
    erewrite filter_ext_in.
    - apply map_ext_in. intros k Hk. apply filter_In in Hk.
      destruct Hk as [Hk _]. apply in_seq in Hk.
      apply nth_shift. lia.
    - intros k Hk. apply in_seq in Hk. cbv beta.
      rewrite nth_shift by lia. reflexivity. }
  destruct (f x); cbn [map]; rewrite ?Nat.sub_diag; cbn [nth];
    [f_equal|]; exact E.
Qed.

(** Taking the positions at which [f] holds gives the elements at which
    [f] holds. *)
Lemma take_filter_seq (f : A -> bool) (l : list A) :
  take d l (filter (fun k => f (nth k l d)) (seq 0 (length l)))
  = filter f l.
Proof.
  rewrite <- (take_filter_seq_from f l 0). unfold take.
  erewrite filter_ext.
  - apply map_ext. intros k. now rewrite Nat.sub_0_r.
  - intros k. cbv beta. now rewrite Nat.sub_0_r.
Qed.

Lemma take_seq (l : list A) : take d l (seq 0 (length l)) = l.
Proof.
  pose proof (take_filter_seq (fun _ => true) l) as E.
  now rewrite !filter_true in E.
Qed.

Lemma take_Permutation (l : list A) (p : list nat) :
  Permutation p (seq 0 (length l)) -> Permutation (take d l p) l.
Proof.
  intros Hp. rewrite <- (take_seq l) at 2.
  unfold take. now apply Permutation_map.
Qed.

Lemma filter_split_Permutation (f : A -> bool) (l : list A) :
  Permutation (filter f l ++ filter (fun x => negb (f x)) l) l.
Proof.
  induction l as [|x l IH]; [constructor|].
  cbn [filter]. destruct (f x); cbn [negb app].
  - now constructor.
  - apply Permutation_sym, Permutation_cons_app, Permutation_sym, IH.
Qed.

End Take.

Section Sorted_facts.

Lemma Sorted_map {A B : Type} (R : B -> B -> Prop) (g : A -> B)
      (l : list A) :
  Sorted (fun x y => R (g x) (g y)) l -> Sorted R (map g l).
Proof.
  induction 1 as [|x l Hs IH Hhd]; cbn [map]; constructor; auto.
  destruct Hhd; cbn [map]; constructor; auto.
Qed.

Lemma Sorted_ext_in {A : Type} (R R' : A -> A -> Prop) (l : list A) :
  (forall x y, In x l -> In y l -> R x y -> R' x y) ->
  Sorted R l -> Sorted R' l.
Proof.
  intros Himp Hs. induction Hs as [|x l Hs IH Hhd]; constructor.
  - apply IH. intros a b Ha Hb. apply Himp; now right.
  - destruct Hhd as [|y l' Hxy]; constructor.
    apply Himp; [now left | right; now left | exact Hxy].
Qed.

End Sorted_facts.

Section Sort_values_facts.

Context {Source : Type} {P : Pandas Source}.

Hypothesis argsort_ok : argsort_ascends argsort.

Lemma cell_at_no_row (i : nat) : cell_at i no_row = NaN.
Proof. unfold cell_at, no_row; simpl. now destruct i. Qed.

Lemma nth_keys (i : nat) (rs : list Row) (k : nat) :
  nth k (map (cell_at i) rs) NaN = cell_at i (nth k rs no_row).
Proof. rewrite <- (cell_at_no_row i) at 1. apply map_nth. Qed.

Lemma positions_of (f : cell -> bool) (i : nat) (rs : list Row) :
  take no_row rs
       (filter (fun k => f (nth k (map (cell_at i) rs) NaN))
               (seq 0 (length (map (cell_at i) rs))))
  = filter (fun r => f (cell_at i r)) rs.
Proof.
  rewrite length_map.
  rewrite <- (take_filter_seq no_row (fun r => f (cell_at i r)) rs).
  f_equal. apply filter_ext. intros k. now rewrite nth_keys.
Qed.

(** What [nargsort] arranges, read on the rows: the rows with a value
    first, ascending, then the rows without, as they were. *)
Lemma nargsort_rows (i : nat) (rs : list Row) (indexer : list nat) :
  nargsort (map (cell_at i) rs) true = Ok indexer ->
  exists present,
    take no_row rs indexer =
    present ++ filter (fun r => isna (cell_at i r)) rs /\
    Permutation present (filter (fun r => notna (cell_at i r)) rs) /\
    Sorted (row_le i) present.
Proof.
  unfold nargsort.
  set (keys := map (cell_at i) rs).
  set (non_nans := filter notna keys).
  set (non_nan_idx := filter (fun k => notna (nth k keys NaN))
                             (seq 0 (length keys))).
  set (nan_idx := filter (fun k => isna (nth k keys NaN))
                         (seq 0 (length keys))).
  set (present_rows := filter (fun r => notna (cell_at i r)) rs).
  destruct (comparable non_nans) eqn:Hc; cbn [negb]; [|discriminate].
  intros [= <-].
  destruct (argsort_ok non_nans Hc) as [Hperm Hsorted].
  assert (Hnon : non_nans = map (cell_at i) present_rows).
  { unfold non_nans, keys, present_rows. apply filter_map_swap. }
  assert (Hidx : take no_row rs non_nan_idx = present_rows).
  { apply (positions_of notna). }
  assert (Hlen : length non_nan_idx = length present_rows).
  { rewrite <- Hidx. unfold take. now rewrite length_map. }
  assert (Hlen' : length non_nans = length present_rows).
  { rewrite Hnon. apply length_map. }
  assert (Hpresent : take no_row rs (take 0 non_nan_idx (argsort non_nans))
                     = take no_row present_rows (argsort non_nans)).
  { unfold take at 1 2. rewrite map_map. apply map_ext_in.
    intros k Hk.
    assert (Hlt : k < length non_nan_idx).
    { apply (Permutation_in _ Hperm) in Hk. apply in_seq in Hk. lia. }
    rewrite <- Hidx. unfold take.
    rewrite (nth_indep (map (fun j => nth j rs no_row) non_nan_idx)
                       no_row (nth 0 rs no_row))
      by (rewrite length_map; exact Hlt).
    now rewrite (map_nth (fun j => nth j rs no_row)). }
  exists (take no_row present_rows (argsort non_nans)).
  split; [|split].
  - unfold take at 1. rewrite map_app. fold (take no_row rs nan_idx).
    fold (take no_row rs (take 0 non_nan_idx (argsort non_nans))).
    rewrite Hpresent. f_equal. apply (positions_of isna).
  - apply take_Permutation. now rewrite <- Hlen'.
  - unfold take. apply Sorted_map.
    eapply Sorted_ext_in; [|exact Hsorted].
    intros x y _ _ Hxy. unfold key_le in Hxy. unfold row_le.
    now rewrite Hnon, !nth_keys in Hxy.
Qed.

Theorem sort_values_ascending (df res : DataFrame) (c : string) :
  sort_values df c true = Ok res ->
  exists i present,
    find_col c (columns df) = Some i /\
    columns res = columns df /\
    rows res = present ++ filter (fun r => isna (cell_at i r)) (rows df) /\
    Permutation present (filter (fun r => notna (cell_at i r)) (rows df)) /\
    Sorted (row_le i) present.
Proof.
  unfold sort_values, getitem.
  destruct (find_col c (columns df)) as [i|]; [|discriminate].
  destruct (nargsort (map (cell_at i) (rows df)) true) as [indexer|e] eqn:E;
    [|discriminate].
  intros [= <-]. cbn [columns rows].
  destruct (nargsort_rows i (rows df) E) as [present [H1 [H2 H3]]].
  exists i, present. repeat split; auto.
Qed.

Lemma filter_none {A : Type} (f : A -> bool) (l : list A) :
  Forall (fun x => f x = true) l -> filter (fun x => negb (f x)) l = [].
Proof.
  induction 1 as [|x l Hx Hl IH]; [reflexivity|].
  cbn [filter]. now rewrite Hx.
Qed.

Lemma isna_negb_notna (c : cell) : isna c = negb (notna c).
Proof. unfold notna. now rewrite negb_involutive. Qed.

Corollary sort_values_Permutation (df res : DataFrame) (c : string) :
  sort_values df c true = Ok res ->
  columns res = columns df /\ Permutation (rows res) (rows df).
Proof.
  intros H.
  destruct (sort_values_ascending _ _ H) as [i [present [_ [Hc [Hr [Hp _]]]]]].
  split; [exact Hc|]. rewrite Hr.
  eapply Permutation_trans;
    [apply Permutation_app_tail; exact Hp|].
  erewrite (filter_ext (fun r => isna (cell_at i r))).
  - apply (filter_split_Permutation (fun r => notna (cell_at i r))).
  - intros r. apply isna_negb_notna.
Qed.

Corollary sort_values_no_missing (df res : DataFrame) (c : string)
          (i : nat) :
  sort_values df c true = Ok res ->
  find_col c (columns df) = Some i ->
  Forall (fun r => notna (cell_at i r) = true) (rows df) ->
  Sorted (row_le i) (rows res).
Proof.
  intros H Hi Hall.
  destruct (sort_values_ascending _ _ H)
    as [i' [present [Hi' [_ [Hr [_ Hs]]]]]].
  assert (i' = i) by congruence. subst i'.
  rewrite Hr.
  rewrite (filter_ext (fun r => isna (cell_at i r))
                      (fun r => negb (notna (cell_at i r))))
    by (intros r; apply isna_negb_notna).
  rewrite filter_none by exact Hall.
  now rewrite app_nil_r.
Qed.

End Sort_values_facts.

(** ** The reference kernels meet the contract *)

Section Insertion.

Variable keys : list cell.
Variable goes_after : nat -> nat -> bool.

Hypothesis after_le :
  forall j i, j < length keys -> i < length keys ->
              goes_after j i = true -> key_le keys j i.
Hypothesis before_le :
  forall j i, j < length keys -> i < length keys ->
              goes_after j i = false -> key_le keys i j.

Lemma insert_by_Permutation (i : nat) (l : list nat) :
  Permutation (Plain.insert_by goes_after i l) (i :: l).
Proof.
  induction l as [|j l IH]; cbn [Plain.insert_by]; [reflexivity|].
  destruct (goes_after j i); [|reflexivity].
  rewrite IH. apply perm_swap.
Qed.

Lemma insert_by_HdRel (a i : nat) (l : list nat) :
  key_le keys a i -> HdRel (key_le keys) a l ->
  HdRel (key_le keys) a (Plain.insert_by goes_after i l).
Proof.
  intros Hai Hhd. destruct Hhd as [|j l Haj]; cbn [Plain.insert_by].
  - now constructor.
  - destruct (goes_after j i); now constructor.
Qed.

Lemma insert_by_Sorted (i : nat) (l : list nat) :
  i < length keys ->
  Forall (fun j => j < length keys) l ->
  Sorted (key_le keys) l ->
  Sorted (key_le keys) (Plain.insert_by goes_after i l).
Proof.
  intros Hi Hl Hs. induction Hs as [|j l Hs IH Hhd];
    cbn [Plain.insert_by].
  - repeat constructor.
  - inversion Hl as [|? ? Hj Hl']; subst.
    destruct (goes_after j i) eqn:E.
    + constructor; [now apply IH|].
      apply insert_by_HdRel; [|exact Hhd]. now apply after_le.
    + constructor; [now constructor|].
      constructor. now apply before_le.
Qed.

Lemma insertion_fold (l acc : list nat) :
  Forall (fun j => j < length keys) l ->
  Forall (fun j => j < length keys) acc ->
  Sorted (key_le keys) acc ->
  let r := fold_left (fun s i => Plain.insert_by goes_after i s) l acc in
  Permutation r (acc ++ l) /\ Sorted (key_le keys) r.
Proof.
  revert acc. induction l as [|i l IH]; intros acc Hl Hacc Hs; cbn zeta.
  - cbn [fold_left]. rewrite app_nil_r. now split.
  - inversion Hl as [|? ? Hi Hl']; subst. cbn [fold_left].
    destruct (IH (Plain.insert_by goes_after i acc)) as [Hp Hs']; auto.
    + eapply Permutation_Forall;
        [apply Permutation_sym, insert_by_Permutation|].
      now constructor.
    + now apply insert_by_Sorted.
    + split; [|exact Hs'].
      rewrite Hp, insert_by_Permutation.
      apply Permutation_middle.
Qed.

Lemma argsort_by_ascends :
  Permutation (fold_left (fun s i => Plain.insert_by goes_after i s)
                         (seq 0 (length keys)) [])
              (seq 0 (length keys)) /\
  Sorted (key_le keys)
         (fold_left (fun s i => Plain.insert_by goes_after i s)
                    (seq 0 (length keys)) []).
Proof.
  apply (@insertion_fold (seq 0 (length keys)) []).
  - apply Forall_forall. intros j Hj. apply in_seq in Hj. lia.
  - constructor.
  - constructor.
Qed.

End Insertion.

Lemma comparable_total (keys : list cell) (i j : nat) :
  comparable keys = true ->
  i < length keys -> j < length keys ->
  cell_leb (nth j keys NaN) (nth i keys NaN) = false ->
  cell_leb (nth i keys NaN) (nth j keys NaN) = true.
Proof.
  intros Hc Hi Hj. apply cell_leb_total.
  unfold comparable in Hc. apply orb_true_iff in Hc.
  destruct Hc as [H|H]; [left|right];
    rewrite forallb_forall in H; split; apply H; now apply nth_In.
Qed.

Theorem insertion_argsort_ascends : argsort_ascends Plain.insertion_argsort.
Proof.
  intros keys Hc. apply argsort_by_ascends.
  - intros j i _ _ H. exact H.
  - intros j i Hj Hi H. now apply comparable_total.
Qed.

Theorem insertion_argsort_ties_first_ascends :
  argsort_ascends Plain.insertion_argsort_ties_first.
Proof.
  intros keys Hc. apply argsort_by_ascends.
  - intros j i Hj Hi H. apply negb_true_iff in H.
    now apply comparable_total.
  - intros j i _ _ H. now apply negb_false_iff in H.
Qed.

(** The contract [argsort_ascends] leaves the order of equal keys open:
    both kernels meet it and they arrange two equal prices differently.
    [sort_values] is called with the default kind of sort, so the order
    among rows of equal price in the Result is that of the kernel. *)
Remark ascending_leaves_ties_open :
  argsort_ascends Plain.insertion_argsort /\
  argsort_ascends Plain.insertion_argsort_ties_first /\
  Plain.insertion_argsort [Num (xint 7); Num (xint 7)] = [0; 1] /\
  Plain.insertion_argsort_ties_first [Num (xint 7); Num (xint 7)] = [1; 0].
Proof.
  split; [exact insertion_argsort_ascends|].
  split; [exact insertion_argsort_ties_first_ascends|].
  split; vm_compute; reflexivity.
Qed.

(** ** [CsvDataProcessor.run] step by step *)

Section Find_col.

Lemma find_col_name (c : string) (names : list string) (i : nat) :
  find_col c names = Some i -> nth i names "" = c.
Proof.
  revert i. induction names as [|c' names IH]; intros i; simpl.
  - discriminate.
  - destruct (String.eqb_spec c c') as [->|_].
    + now intros [= <-].
    + destruct (find_col c names) as [k|]; simpl; [|discriminate].
      intros [= <-]. now apply IH.
Qed.

Lemma find_col_app_l (c : string) (names more : list string) (i : nat) :
  find_col c names = Some i -> find_col c (names ++ more) = Some i.
Proof.
  revert i. induction names as [|c' names IH]; intros i; simpl.
  - discriminate.
  - destruct (String.eqb c c'); [easy|].
    destruct (find_col c names) as [k|]; simpl; [|discriminate].
    intros [= <-]. now rewrite (IH k eq_refl).
Qed.

Lemma find_col_app_new (c : string) (names : list string) :
  find_col c names = None ->
  find_col c (names ++ [c]) = Some (length names).
Proof.
  induction names as [|c' names IH]; simpl.
  - now rewrite String.eqb_refl.
  - destruct (String.eqb c c'); [discriminate|].
    destruct (find_col c names); simpl; [discriminate|].
    intros _. now rewrite IH.
Qed.

End Find_col.

Section Cut_facts.

Lemma cut_cells_combine {A : Type} (h : A -> cell) (bins : list xnum)
      (labels : list Z) (l : list A) :
  forall cats,
    cut_cells bins labels (map h l) = Ok cats ->
    length cats = length l /\
    forall a c, In (a, c) (combine l cats) ->
                cut_cell bins labels (h a) = Ok c.
Proof.
  induction l as [|x l IH]; intros cats; cbn [map cut_cells].
  - intros [= <-]. split; [reflexivity | intros a c []].
  - destruct (cut_cell bins labels (h x)) as [c'|] eqn:E; [|discriminate].
    destruct (cut_cells bins labels (map h l)) as [r|]; [|discriminate].
    intros [= <-]. destruct (IH r eq_refl) as [Hlen Hin].
    split; [simpl; now rewrite Hlen|].
    intros a c [[= <- <-]|H]; [exact E | now apply Hin].
Qed.

Lemma cut_price_bins (x cats : list cell) :
  cut x price_bins price_labels = Ok cats ->
  cut_cells price_bins price_labels x = Ok cats.
Proof. unfold cut. cbn. auto. Qed.

Lemma map_label_combine {B : Type} (g : Row * B -> Row) (l : list Row)
      (cats : list B) :
  length cats = length l ->
  (forall rc, label (g rc) = label (fst rc)) ->
  map label (map g (combine l cats)) = map label l.
Proof.
  intros Hlen Hg. revert cats Hlen.
  induction l as [|r l IH]; intros [|c cats] Hlen; simpl in *;
    try discriminate; [reflexivity|].
  rewrite Hg. simpl. f_equal. apply IH. lia.
Qed.

(** The assignment puts next to each price its bucket, in the row of
    that price, and keeps rows and prices as they are. *)
Lemma categorized_rows (df d : DataFrame) :
  wf_rows (length (columns df)) (rows df) ->
  categorized df = Ok d ->
  exists i j,
    find_col "selling_price" (columns df) = Some i /\
    find_col "selling_price" (columns d) = Some i /\
    find_col "price_category" (columns d) = Some j /\
    map label (rows d) = map label (rows df) /\
    (forall r', In r' (rows d) ->
                price_category (cell_at i r') = Ok (cell_at j r') /\
                exists r, In r (rows df) /\ cell_at i r = cell_at i r').
Proof.
  intros Hwf. unfold categorized, getitem.
  destruct (find_col "selling_price" (columns df)) as [i|] eqn:Hi;
    [|discriminate].
  destruct (cut (map (cell_at i) (rows df)) price_bins price_labels)
    as [cats|] eqn:Hcut; [|discriminate].
  apply cut_price_bins, cut_cells_combine in Hcut.
  destruct Hcut as [Hlen Hcut].
  intros [= <-]. exists i.
  pose proof (find_col_lt _ _ Hi) as Hilt.
  unfold wf_rows in Hwf. rewrite Forall_forall in Hwf.
  unfold setitem.
  destruct (find_col "price_category" (columns df)) as [j|] eqn:Hj.
  - exists j. cbn [columns rows].
    assert (Hne : i <> j).
    { intros ->. apply find_col_name in Hi, Hj. congruence. }
    pose proof (find_col_lt _ _ Hj) as Hjlt.
    repeat split; auto.
    + now apply map_label_combine.
    + apply in_map_iff in H. destruct H as [[r c] [<- Hin]].
      cbn [fst snd]. unfold cell_at, iloc_set; cbn [cells].
      rewrite nth_set_nth_other by exact Hne.
      rewrite nth_set_nth
        by (rewrite (Hwf r (in_combine_l _ _ _ _ Hin)); exact Hjlt).
      apply (Hcut r c Hin).
    + apply in_map_iff in H. destruct H as [[r c] [<- Hin]].
      exists r. split; [eapply in_combine_l; eauto|].
      cbn [fst snd]. unfold cell_at, iloc_set; cbn [cells].
      now rewrite nth_set_nth_other by exact Hne.
  - exists (length (columns df)). cbn [columns rows].
    repeat split; auto using find_col_app_l, find_col_app_new.
    + now apply map_label_combine.
    + apply in_map_iff in H. destruct H as [[r c] [<- Hin]].
      cbn [fst snd]. unfold cell_at; cbn [cells].
      pose proof (Hwf r (in_combine_l _ _ _ _ Hin)) as Hr.
      rewrite app_nth1 by lia.
      rewrite app_nth2, Hr, Nat.sub_diag by lia. cbn [nth].
      apply (Hcut r c Hin).
    + apply in_map_iff in H. destruct H as [[r c] [<- Hin]].
      exists r. split; [eapply in_combine_l; eauto|].
      cbn [fst snd]. unfold cell_at; cbn [cells].
      pose proof (Hwf r (in_combine_l _ _ _ _ Hin)) as Hr.
      now rewrite app_nth1 by lia.
Qed.

Lemma rowwise_wf (n : nat) (rs : list Row) :
  wf_rows n rs -> wf_rows n (dropna_any_rowwise rs).
Proof.
  unfold wf_rows, dropna_any_rowwise. rewrite !Forall_forall.
  intros H r Hr. apply filter_In in Hr. destruct Hr as [Hr _].
  apply in_map_iff in Hr. destruct Hr as [r0 [<- Hr0]].
  unfold replace_all; cbn [cells]. rewrite length_map. now apply H.
Qed.

Lemma rowwise_notna (n i : nat) (rs : list Row) (r : Row) :
  wf_rows n rs -> i < n -> In r (dropna_any_rowwise rs) ->
  notna (cell_at i r) = true.
Proof.
  intros Hwf Hi Hr.
  pose proof (rowwise_wf Hwf) as Hwf'.
  unfold wf_rows in Hwf'. rewrite Forall_forall in Hwf'.
  specialize (Hwf' r Hr).
  unfold dropna_any_rowwise in Hr. apply filter_In in Hr.
  destruct Hr as [_ Hc]. unfold complete in Hc.
  rewrite forallb_forall in Hc. apply Hc.
  unfold cell_at. apply nth_In. lia.
Qed.

End Cut_facts.

Section Csv_run.

Context {Source : Type} {P : Pandas Source}.

Lemma categorize_run (w : World Source) (df : DataFrame) :
  _dataset (self w) = Some df ->
  categorize w =
  match categorized df with
  | Ok d => (Ok tt, with_dataset w (Some d))
  | Raise e => (Raise e, w)
  end.
Proof.
  intros Hd. unfold categorize, categorized.
  rewrite (bind_ok _ _ _ (dataset_subscript_some w Hd)).
  destruct (getitem df "selling_price") as [x|e]; [|reflexivity].
  unfold bind at 1, lift at 1, ret.
  destruct (cut x price_bins price_labels) as [cats|e]; reflexivity.
Qed.

Lemma sort_into_result_run (w : World Source) (df : DataFrame) :
  _dataset (self w) = Some df ->
  sort_into_result w =
  match sort_values df "selling_price" true with
  | Ok r => (Ok tt, with_result w (Some r))
  | Raise e => (Raise e, w)
  end.
Proof.
  intros Hd. unfold sort_into_result, bind at 1, get_self.
  rewrite Hd. unfold sort_data_by_col, bind, lift.
  destruct (sort_values df "selling_price" true); reflexivity.
Qed.

Lemma lab3_csv_run (w : World Source) (df : DataFrame) :
  _dataset (self w) = Some df ->
  Lab3.CsvDataProcessor_run w =
  match categorized (cleaned df) with
  | Raise e => (Raise e, with_dataset w (Some (cleaned df)))
  | Ok d =>
      match sort_values d "selling_price" true with
      | Raise e => (Raise e, with_dataset w (Some d))
      | Ok r => (Ok tt, with_result (with_dataset w (Some d)) (Some r))
      end
  end.
Proof.
  intros Hd. unfold Lab3.CsvDataProcessor_run.
  rewrite (bind_ok _ _ _ (cleaning_run w Hd)). fold (cleaned df).
  unfold bind at 1.
  rewrite (@categorize_run (with_dataset w (Some (cleaned df)))
                           (cleaned df) eq_refl).
  destruct (categorized (cleaned df)) as [d|e]; [|reflexivity].
  rewrite with_dataset_twice.
  now rewrite (@sort_into_result_run (with_dataset w (Some d)) d eq_refl).
Qed.

Lemma lab4_5_csv_run (w : World Source) :
  Lab4_5.CsvDataProcessor_run w =
  Lab3.CsvDataProcessor_run (with_result w (Some (mkDF [] []))).
Proof. reflexivity. Qed.

(** A [run] that completes went through the three steps. *)
Lemma csv_run_completes (w w' : World Source) (df : DataFrame) :
  _dataset (self w) = Some df ->
  Lab3.CsvDataProcessor_run w = (Ok tt, w') \/
  Lab4_5.CsvDataProcessor_run w = (Ok tt, w') ->
  exists d res,
    categorized (cleaned df) = Ok d /\
    sort_values d "selling_price" true = Ok res /\
    _dataset (self w') = Some d /\
    result (self w') = Some res.
Proof.
  intros Hd [H|H].
  - rewrite (lab3_csv_run w Hd) in H.
    destruct (categorized (cleaned df)) as [d|e]; [|discriminate].
    destruct (sort_values d "selling_price" true) as [r|e] eqn:Hs;
      [|discriminate].
    injection H as <-. exists d, r. auto.
  - rewrite lab4_5_csv_run in H.
    rewrite (@lab3_csv_run (with_result w (Some (mkDF [] []))) df Hd) in H.
    destruct (categorized (cleaned df)) as [d|e]; [|discriminate].
    destruct (sort_values d "selling_price" true) as [r|e] eqn:Hs;
      [|discriminate].
    injection H as <-. exists d, r. auto.
Qed.

Lemma cleaned_rowwise (df : DataFrame) :
  wf_df df ->
  cleaned df = mkDF (columns df) (dropna_any_rowwise (rows df)).
Proof.
  intros [Hnd Hwf]. unfold cleaned.
  now rewrite first_pos_NoDup, (clean_rows_rowwise Hwf).
Qed.

(** The rows of a completed [run]: prices are numbers, and each row
    carries the bucket of its own price. *)
Lemma csv_run_rows (w w' : World Source) (df : DataFrame) :
  argsort_ascends argsort ->
  _dataset (self w) = Some df ->
  wf_df df ->
  Lab3.CsvDataProcessor_run w = (Ok tt, w') \/
  Lab4_5.CsvDataProcessor_run w = (Ok tt, w') ->
  exists d res i j,
    _dataset (self w') = Some d /\
    result (self w') = Some res /\
    sort_values d "selling_price" true = Ok res /\
    find_col "selling_price" (columns d) = Some i /\
    find_col "price_category" (columns d) = Some j /\
    map label (rows d) = map label (dropna_any_rowwise (rows df)) /\
    forall r, In r (rows d) ->
              exists v, cell_at i r = Num v /\
                        bucket_rule v (cell_at j r).
Proof.
  intros Hsort Hd Hwf Hrun.
  destruct (csv_run_completes w Hd Hrun) as [d [res [Hcat [Hs [Hd' Hres]]]]].
  rewrite (cleaned_rowwise Hwf) in Hcat.
  pose proof (rowwise_wf (proj2 Hwf)) as Hwf'.
  destruct (@categorized_rows
              (mkDF (columns df) (dropna_any_rowwise (rows df))) d
              Hwf' Hcat)
    as [i [j [Hi0 [Hi [Hj [Hlab Hrows]]]]]].
  exists d, res, i, j. repeat split; auto.
  intros r Hr. destruct (Hrows r Hr) as [Hpc [r0 [Hr0 Hsame]]].
  cbn [columns rows] in *.
  assert (Hna : notna (cell_at i r) = true).
  { rewrite <- Hsame.
    eapply rowwise_notna; [exact (proj2 Hwf) | | exact Hr0].
    eapply find_col_lt; eauto. }
  destruct (cell_at i r) as [|v|s]; try discriminate.
  exists v. split; [reflexivity|].
  destruct (price_category_spec v) as [c [Hc Hrule]].
  rewrite Hc in Hpc. injection Hpc as <-. exact Hrule.
Qed.


End Csv_run.

(** ** The order of the Result *)

Section Result_order.

Context {Source : Type} {P : Pandas Source}.

(** C4 (amended).  The Result of a completed [run] holds the rows of the
    Dataset, rearranged.  TXT variant: the rows with a [selling_price]
    come first and ascend pairwise, the rows whose [selling_price] is
    missing follow in their original order.  CSV variant: no price is
    missing after cleaning, and every two adjacent rows [(a, b)] of the
    Result satisfy [a[selling_price] <= b[selling_price]].  Nothing is
    said of the order among rows of equal price: [sort_data_by_col]
    asks for the default kind of sort. *)
Theorem run_result_ascending (w w' : World Source) (df : DataFrame) :
  argsort_ascends argsort ->
  _dataset (self w) = Some df ->
  (TxtDataProcessor_run w = (Ok tt, w') ->
   exists res i present,
     result (self w') = Some res /\
     find_col "selling_price" (columns df) = Some i /\
     columns res = columns df /\
     Permutation (rows res) (rows df) /\
     rows res = present ++ filter (fun r => isna (cell_at i r)) (rows df) /\
     Forall (fun r => notna (cell_at i r) = true) present /\
     Sorted (row_le i) present) /\
  (wf_df df ->
   Lab3.CsvDataProcessor_run w = (Ok tt, w') \/
   Lab4_5.CsvDataProcessor_run w = (Ok tt, w') ->
   exists res d i,
     result (self w') = Some res /\
     _dataset (self w') = Some d /\
     find_col "selling_price" (columns res) = Some i /\
     columns res = columns d /\
     Permutation (rows res) (rows d) /\
     Sorted (row_le i) (rows res)).
Proof.
  intros Hsort Hd. split.
  - unfold TxtDataProcessor_run. rewrite (sort_into_result_run w Hd).
    destruct (sort_values df "selling_price" true) as [res|e] eqn:Hs;
      [|discriminate].
    intros [= <-].
    destruct (sort_values_ascending Hsort _ _ Hs)
      as [i [present [Hi [Hc [Hr [Hp Hsd]]]]]].
    destruct (sort_values_Permutation Hsort _ _ Hs) as [_ Hperm].
    exists res, i, present. repeat split; auto.
    eapply Permutation_Forall; [apply Permutation_sym; exact Hp|].
    apply Forall_forall. intros r Hr'. now apply filter_In in Hr'.
  - intros Hwf Hrun.
    destruct (csv_run_rows w Hsort Hd Hwf Hrun)
      as [d [res [i [j [Hd' [Hres [Hs [Hi [_ [_ Hrows]]]]]]]]]].
    destruct (sort_values_Permutation Hsort _ _ Hs) as [Hcols Hperm].
    exists res, d, i. rewrite Hcols. repeat split; auto.
    apply (sort_values_no_missing Hsort _ _ Hs Hi).
    apply Forall_forall. intros r Hr.
    destruct (Hrows r Hr) as [v [-> _]]. reflexivity.
Qed.

End Result_order.

(** The two theorems on a small table of cars. *)


Example csv_run_cars :
  result (self (snd (Lab4_5.CsvDataProcessor_run (P := Plain.pandas)
                                                 (loaded_csv cars))))
  = Some (mkDF ["name"; "selling_price"; "price_category"]
               [mkRow 5 [Str "Fiat"; Num (xint 0); NaN];
                mkRow 3 [Str "Tata"; Num (xint 450000); Num (xint 1)];
                mkRow 0 [Str "Maruti"; Num (xint 600000); Num (xint 2)];
                mkRow 4 [Str "Audi"; Num (xint 1500001); Num (xint 3)]]).
Proof. vm_compute. reflexivity. Qed.

Lemma run_result_ascending_witness :
  (exists res i present,
      result (self (snd (TxtDataProcessor_run (P := Plain.pandas)
                                              (loaded_txt prices))))
      = Some res /\
      find_col "selling_price" (columns prices) = Some i /\
      columns res = columns prices /\
      Permutation (rows res) (rows prices) /\
      rows res = present ++ filter (fun r => isna (cell_at i r))
                                   (rows prices) /\
      Forall (fun r => notna (cell_at i r) = true) present /\
      Sorted (row_le i) present) /\
  (exists res d i,
      result (self (snd (Lab3.CsvDataProcessor_run (P := Plain.pandas)
                                                   (loaded_csv cars))))
      = Some res /\
      _dataset (self (snd (Lab3.CsvDataProcessor_run (P := Plain.pandas)
                                                     (loaded_csv cars))))
      = Some d /\
      find_col "selling_price" (columns res) = Some i /\
      columns res = columns d /\
      Permutation (rows res) (rows d) /\
      Sorted (row_le i) (rows res)).
Proof.
  split.
  - apply (proj1 (@run_result_ascending
                    string Plain.pandas (loaded_txt prices) _ prices
                    insertion_argsort_ascends eq_refl)).
    vm_compute. reflexivity.
  - apply (proj2 (@run_result_ascending
                    string Plain.pandas (loaded_csv cars) _ cars
                    insertion_argsort_ascends eq_refl)).
    + exact wf_cars.
    + left. vm_compute. reflexivity.
Defined.

(** C4 as stated fails on the TXT variant: the file below is read into
    three rows, one of them without a price; [run] puts that row last, and
    the pair made of the row of price 5 and the row without a price is not
    ordered by [<=]. *)
Lemma txt_result_missing_price_last :
  let w1 := snd (Lab4_5.TxtDataProcessor_read (P := Plain.pandas)
                                              (fresh_txt prices_txt)) in
  let w2 := snd (TxtDataProcessor_run (P := Plain.pandas) w1) in
  fst (Lab4_5.TxtDataProcessor_read (P := Plain.pandas)
                                    (fresh_txt prices_txt)) = Ok true /\
  _dataset (self w1) = Some prices /\
  fst (TxtDataProcessor_run (P := Plain.pandas) w1) = Ok tt /\
  result (self w2) =
  Some (mkDF ["selling_price"; "x"]
             [mkRow 2 [Num (xint 3); Num (xint 3)];
              mkRow 0 [Num (xint 5); Num (xint 1)];
              mkRow 1 [NaN; Num (xint 2)]]) /\
  cell_leb (cell_at 0 (mkRow 0 [Num (xint 5); Num (xint 1)]))
           (cell_at 0 (mkRow 1 [NaN; Num (xint 2)])) = false /\
  ~ Sorted (row_le 0)
           [mkRow 2 [Num (xint 3); Num (xint 3)];
            mkRow 0 [Num (xint 5); Num (xint 1)];
            mkRow 1 [NaN; Num (xint 2)]].
Proof.
  cbv zeta. repeat split; try (vm_compute; reflexivity).
  intros Hs. inversion Hs as [|? ? Hs1 _]; subst.
  inversion Hs1 as [|? ? _ Hhd]; subst.
  inversion Hhd as [|? ? Hle]; subst.
  unfold row_le in Hle. vm_compute in Hle. discriminate.
Qed.

(** * Further properties of the methods *)

(** ** [CsvDataProcessor.read] as a function of the parses *)

Section Csv_read_outcome.

Context {Source : Type} {P : Pandas Source}.

Lemma read_for_outcome (seps : list string) :
  forall w : World Source,
  exists r tr,
    read_for seps w =
    (r, mkWorld (self (with_dataset
                         w (kept (_datasource (self w)) seps
                                 (_dataset (self w))))) tr) /\
    (answer (_datasource (self w)) seps = true -> r = Ok (Some true)) /\
    (answer (_datasource (self w)) seps = false ->
     r = Ok None \/ exists e, r = Raise e).
Proof.
  induction seps as [|sep seps IH]; intros w.
  - exists (Ok None), (trace w). cbn [read_for kept answer].
    rewrite with_dataset_same. destruct w. repeat split; auto.
    discriminate.
  - cbn [kept answer].
    destruct (read_csv (_datasource (self w)) sep) as [d|e] eqn:Hd.
    + destruct (1 <? length (columns d)) eqn:Hwide.
      * apply Nat.ltb_lt in Hwide.
        rewrite (@read_for_accepts _ _ sep seps w d Hd Hwide).
        eexists _, _. split; [reflexivity|]. split; auto. discriminate.
      * apply Nat.ltb_ge in Hwide.
        assert (Hn : narrow (_datasource (self w)) sep) by (exists d; auto).
        pose proof (@read_for_narrow _ _ [sep] seps w
                      (Forall_cons _ Hn (Forall_nil _))) as E.
        simpl app in E. rewrite E. simpl loaded. rewrite Hd.
        match goal with |- context [read_for seps ?w1] =>
          destruct (IH w1) as [r [tr [E1 Hr]]] end.
        exists r, tr. split; [|exact Hr]. rewrite E1.
        destruct w as [[src ds res sp] tr0]; reflexivity.
    + rewrite (@read_for_raises _ _ sep seps w e Hd).
      exists (Raise e), (trace w ++ [CallReadCsv sep]).
      rewrite with_dataset_same. repeat split; eauto. discriminate.
Qed.

(** [read] computes [answer] and leaves [kept]; it changes nothing else
    of the processor. *)
Lemma csv_read_outcome (w : World Source) :
  exists tr,
    CsvDataProcessor_read w =
    (Ok (answer (_datasource (self w)) (separators (self w))),
     mkWorld (self (with_dataset
                      w (kept (_datasource (self w)) (separators (self w))
                              (_dataset (self w))))) tr).
Proof.
  destruct (read_for_outcome (separators (self w)) w) as [r [tr [E [Ht Hf]]]].
  unfold CsvDataProcessor_read, bind at 1, try_except, bind at 1, get_self.
  rewrite E.
  destruct (answer (_datasource (self w)) (separators (self w))).
  - rewrite (Ht eq_refl). eexists. reflexivity.
  - destruct (Hf eq_refl) as [-> | [e ->]]; eexists; reflexivity.
Qed.

Lemma answer_kept (datasource : Source) (seps : list string)
      (init : option DataFrame) :
  answer datasource seps = true ->
  exists sep df,
    In sep seps /\ read_csv datasource sep = Ok df /\
    1 < length (columns df) /\ kept datasource seps init = Some df.
Proof.
  revert init. induction seps as [|sep seps IH]; intros init;
    cbn [answer kept]; [discriminate|].
  destruct (read_csv datasource sep) as [d|e] eqn:Hd; [|discriminate].
  destruct (1 <? length (columns d)) eqn:Hwide.
  - intros _. exists sep, d. apply Nat.ltb_lt in Hwide.
    repeat split; auto. now left.
  - intros H. destruct (IH (Some d) H) as [s [df [Hin [H1 [H2 H3]]]]].
    exists s, df. repeat split; auto. now right.
Qed.

Lemma kept_kept (datasource : Source) (seps : list string)
      (init : option DataFrame) :
  kept datasource seps (kept datasource seps init) = kept datasource seps init.
Proof.
  destruct seps as [|sep seps]; cbn [kept]; [reflexivity|].
  destruct (read_csv datasource sep) as [d|e]; reflexivity.
Qed.

(** X1.  In every state and for every parser, [CsvDataProcessor.read]
    returns a boolean and changes nothing of the processor but the
    Dataset; when it returns [True], the Dataset it leaves is the parse
    under one of its separators and has more than one column. *)
Theorem csv_read_true_means_loaded (w : World Source) :
  exists b w',
    CsvDataProcessor_read w = (Ok b, w') /\
    _datasource (self w') = _datasource (self w) /\
    result (self w') = result (self w) /\
    separators (self w') = separators (self w) /\
    (b = true ->
     exists sep df,
       In sep (separators (self w)) /\
       read_csv (_datasource (self w)) sep = Ok df /\
       1 < length (columns df) /\
       _dataset (self w') = Some df).
Proof.
  destruct (csv_read_outcome w) as [tr E].
  eexists _, _. split; [exact E|]. cbn [self with_dataset _datasource
                                             result separators _dataset].
  repeat split. intros Hb.
  destruct (answer_kept _ _ (_dataset (self w)) Hb)
    as [sep [df [Hin [H1 [H2 H3]]]]].
  exists sep, df. auto.
Qed.

(** X2.  [read] can be repeated: called again on the processor it left,
    it gives the same answer and leaves the same processor. *)
Theorem csv_read_again (w w' : World Source) (b : bool) :
  CsvDataProcessor_read w = (Ok b, w') ->
  exists tr, CsvDataProcessor_read w' = (Ok b, mkWorld (self w') tr).
Proof.
  intros H. destruct (csv_read_outcome w) as [tr E].
  set (w1 := mkWorld (self (with_dataset
                              w (kept (_datasource (self w))
                                      (separators (self w))
                                      (_dataset (self w))))) tr) in *.
  assert (Hw : w' = w1) by congruence.
  assert (Hb : b = answer (_datasource (self w)) (separators (self w)))
    by congruence.
  subst w' b.
  destruct (csv_read_outcome w1) as [tr' E'].
  exists tr'. rewrite E'. unfold w1.
  cbn [self with_dataset _datasource separators _dataset trace result].
  now rewrite kept_kept.
Qed.

End Csv_read_outcome.

Lemma csv_read_again_witness :
  exists tr,
    CsvDataProcessor_read
      (P := Plain.pandas)
      (snd (CsvDataProcessor_read (P := Plain.pandas)
                                  (fresh_csv (Plain.file ["a"; "1"])))) =
    (Ok false,
     mkWorld (self (snd (CsvDataProcessor_read
                           (P := Plain.pandas)
                           (fresh_csv (Plain.file ["a"; "1"]))))) tr).
Proof.
  apply (@csv_read_again string Plain.pandas
                         (fresh_csv (Plain.file ["a"; "1"]))).
  vm_compute. reflexivity.
Defined.

(** ** The cleaning step as a filter *)

Section Cleaning_filter.

Context {Source : Type}.

Lemma notna_replace_empty (c : cell) :
  notna (replace_empty c) = clean_cellb c.
Proof.
  destruct c as [|x|s]; try reflexivity. simpl.
  destruct (String.eqb s ""); reflexivity.
Qed.

Lemma clean_cellb_spec (c : cell) : clean_cellb c = true <-> clean_cell c.
Proof.
  unfold clean_cell. destruct c as [|x|s]; simpl.
  - split; [discriminate | intros [H _]; congruence].
  - split; [split; discriminate | reflexivity].
  - rewrite negb_true_iff. destruct (String.eqb_spec s "") as [->|Hne].
    + split; [discriminate | intros [_ H]; congruence].
    + split; [split; congruence | reflexivity].
Qed.

Lemma replace_empty_clean (cs : list cell) :
  forallb clean_cellb cs = true -> map replace_empty cs = cs.
Proof.
  induction cs as [|c cs IH]; [reflexivity|]. cbn [forallb map].
  intros H. apply andb_true_iff in H. destruct H as [Hc Hcs].
  rewrite (IH Hcs). f_equal.
  destruct c as [|x|s]; try reflexivity; simpl in *.
  now apply negb_true_iff in Hc; rewrite Hc.
Qed.

Lemma dropna_any_rowwise_filter (rs : list Row) :
  dropna_any_rowwise rs = filter clean_row rs.
Proof.
  unfold dropna_any_rowwise.
  induction rs as [|r rs IH]; [reflexivity|]. cbn [map filter].
  assert (E : complete (replace_all r) = clean_row r).
  { unfold complete, clean_row, replace_all; cbn [cells].
    induction (cells r) as [|c cs IHc]; [reflexivity|].
    cbn [map forallb]. now rewrite notna_replace_empty, IHc. }
  rewrite E, IH. destruct (clean_row r) eqn:Hr; [|reflexivity].
  f_equal. unfold replace_all. rewrite (replace_empty_clean _ Hr).
  now destruct r.
Qed.

Lemma cleaned_filter (df : DataFrame) :
  wf_df df -> cleaned df = mkDF (columns df) (filter clean_row (rows df)).
Proof.
  intros Hwf. rewrite (cleaned_rowwise Hwf).
  now rewrite dropna_any_rowwise_filter.
Qed.

Lemma cleaning_cleaned (w : World Source) (df : DataFrame) :
  _dataset (self w) = Some df ->
  cleaning w = (Ok tt, with_dataset w (Some (cleaned df))).
Proof. apply cleaning_run. Qed.

Lemma wf_filter (df : DataFrame) (f : Row -> bool) :
  wf_df df -> wf_df (mkDF (columns df) (filter f (rows df))).
Proof.
  intros [Hnd Hwf]. split; [exact Hnd|]. cbn [columns rows].
  unfold wf_rows in *. rewrite Forall_forall in *.
  intros r Hr. apply filter_In in Hr. now apply Hwf.
Qed.

Lemma filter_idem {A : Type} (f : A -> bool) (l : list A) :
  filter f (filter f l) = filter f l.
Proof.
  induction l as [|x l IH]; [reflexivity|]. cbn [filter].
  destruct (f x) eqn:E; [|exact IH]. cbn [filter]. now rewrite E, IH.
Qed.

(** X3.  The cleaning step of [run] keeps exactly the rows in which no
    cell is missing and no cell is an empty string, in their order, and
    alters none of them; the columns stay as they are. *)
Theorem cleaning_keeps_clean_rows (w : World Source) (df : DataFrame) :
  _dataset (self w) = Some df ->
  wf_df df ->
  cleaning w =
  (Ok tt,
   with_dataset w (Some (mkDF (columns df) (filter clean_row (rows df))))).
Proof.
  intros Hd Hwf.
  now rewrite (cleaning_cleaned w Hd), (cleaned_filter Hwf).
Qed.

(** X4.  Cleaning twice is cleaning once, on every table: the second
    pass drops and changes nothing. *)
Theorem cleaning_twice (w : World Source) (df : DataFrame) :
  _dataset (self w) = Some df ->
  wf_df df ->
  (cleaning ;; cleaning) w = cleaning w.
Proof.
  intros Hd Hwf.
  rewrite (bind_ok _ _ _ (cleaning_cleaned w Hd)).
  rewrite (@cleaning_cleaned (with_dataset w (Some (cleaned df)))
                             (cleaned df) eq_refl).
  rewrite (cleaning_cleaned w Hd), with_dataset_twice.
  rewrite (cleaned_filter Hwf).
  rewrite (cleaned_filter (wf_filter clean_row Hwf)). cbn [columns rows].
  now rewrite filter_idem.
Qed.

End Cleaning_filter.

Lemma cleaning_keeps_clean_rows_witness :
  cleaning (loaded_csv cars) = (Ok tt, loaded_csv cars_clean).
Proof.
  exact (@cleaning_keeps_clean_rows string (loaded_csv cars) cars
                                    eq_refl wf_cars).
Defined.

Lemma cleaning_twice_witness :
  (cleaning ;; cleaning) (loaded_csv cars) = cleaning (loaded_csv cars).
Proof.
  exact (@cleaning_twice string (loaded_csv cars) cars eq_refl wf_cars).
Defined.

(** ** When [run] completes and how it fails *)

Section Run_outcomes.

Context {Source : Type} {P : Pandas Source}.

Lemma with_result_dataset (w : World Source) (d r : option DataFrame) :
  with_result (with_dataset w d) r = with_dataset (with_result w r) d.
Proof. reflexivity. Qed.

Lemma cut_cell_not_text (bins : list xnum) (labels : list Z) (c : cell) :
  is_str c = false -> exists c', cut_cell bins labels c = Ok c'.
Proof.
  destruct c as [|x|s]; simpl; try discriminate; intros _; eauto.
  destruct ((searchsorted_left bins x =? 0)
            || (searchsorted_left bins x =? length bins)); eauto.
  destruct (nth_error labels (searchsorted_left bins x - 1)); eauto.
Qed.

Lemma cut_cells_numbers (bins : list xnum) (labels : list Z)
      (x : list cell) :
  existsb is_str x = false -> exists cats, cut_cells bins labels x = Ok cats.
Proof.
  induction x as [|c x IH]; cbn [existsb cut_cells]; [eauto|].
  intros H. apply orb_false_iff in H. destruct H as [Hc Hx].
  destruct (cut_cell_not_text bins labels c Hc) as [c' ->].
  destruct (IH Hx) as [cats ->]. eauto.
Qed.

Lemma cut_cells_text (bins : list xnum) (labels : list Z) (x : list cell) :
  existsb is_str x = true ->
  exists msg, cut_cells bins labels x = Raise (TypeError msg).
Proof.
  induction x as [|c x IH]; cbn [existsb cut_cells]; [discriminate|].
  destruct c as [|v|s]; cbn [is_str orb].
  - intros H. destruct (IH H) as [msg ->]. simpl. now exists msg.
  - intros H. destruct (IH H) as [msg ->].
    destruct (cut_cell bins labels (Num v)) as [c'|e] eqn:E.
    + now exists msg.
    + exfalso. destruct (cut_cell_not_text bins labels (Num v) eq_refl)
        as [c' Hc']. congruence.
  - intros _. simpl. eexists. reflexivity.
Qed.

Lemma existsb_map_In {A : Type} (f : A -> cell) (l : list A) :
  existsb is_str (map f l) = false <->
  Forall (fun a => is_str (f a) = false) l.
Proof.
  induction l as [|a l IH]; cbn [map existsb].
  - split; [constructor | reflexivity].
  - rewrite orb_false_iff, IH. split.
    + intros [H1 H2]. now constructor.
    + intros H. inversion H; subst. auto.
Qed.

Lemma cut_price (x : list cell) :
  cut x price_bins price_labels = cut_cells price_bins price_labels x.
Proof. reflexivity. Qed.

Lemma categorized_numeric (df : DataFrame) :
  wf_df df ->
  (exists d, categorized (cleaned df) = Ok d) <-> numeric_prices df.
Proof.
  intros Hwf. rewrite (cleaned_filter Hwf).
  unfold categorized, getitem, numeric_prices. cbn [columns rows].
  destruct (find_col "selling_price" (columns df)) as [i|].
  - rewrite cut_price. split.
    + intros [d Hd]. exists i. split; [reflexivity|].
      apply existsb_map_In.
      destruct (existsb is_str
                        (map (cell_at i) (filter clean_row (rows df))))
               eqn:E; [|reflexivity].
      destruct (cut_cells_text price_bins price_labels _ E) as [msg Hm].
      rewrite Hm in Hd. discriminate.
    + intros [i' [Hi Hall]]. injection Hi as <-.
      apply existsb_map_In in Hall.
      destruct (cut_cells_numbers price_bins price_labels _ Hall)
        as [cats ->].
      eauto.
  - split; [intros [d Hd]; discriminate | intros [i [Hi _]]; discriminate].
Qed.

Lemma sort_values_completes (d : DataFrame) (c : string) (i : nat) :
  find_col c (columns d) = Some i ->
  comparable (filter notna (map (cell_at i) (rows d))) = true ->
  exists res, sort_values d c true = Ok res.
Proof.
  intros Hi Hc. unfold sort_values, getitem, nargsort. rewrite Hi, Hc.
  cbn [negb]. eauto.
Qed.

(** After the assignment of the categories every price is a number. *)
Lemma categorized_prices_numbers (df d : DataFrame) :
  wf_df df ->
  categorized (cleaned df) = Ok d ->
  exists i,
    find_col "selling_price" (columns d) = Some i /\
    forallb is_num (map (cell_at i) (rows d)) = true.
Proof.
  intros Hwf Hcat. rewrite (cleaned_rowwise Hwf) in Hcat.
  pose proof (rowwise_wf (proj2 Hwf)) as Hwf'.
  destruct (@categorized_rows
              (mkDF (columns df) (dropna_any_rowwise (rows df))) d
              Hwf' Hcat)
    as [i [j [Hi0 [Hi [Hj [Hlab Hrows]]]]]].
  exists i. split; [exact Hi|].
  apply forallb_forall. intros c Hc. apply in_map_iff in Hc.
  destruct Hc as [r [<- Hr]].
  destruct (Hrows r Hr) as [Hpc [r0 [Hr0 Hsame]]].
  cbn [columns rows] in *.
  assert (Hna : notna (cell_at i r) = true).
  { rewrite <- Hsame.
    eapply rowwise_notna; [exact (proj2 Hwf) | | exact Hr0].
    eapply find_col_lt; eauto. }
  destruct (cell_at i r) as [|v|s]; try discriminate; reflexivity.
Qed.

Lemma forallb_filter_keep {A : Type} (f g : A -> bool) (l : list A) :
  forallb f l = true -> forallb f (filter g l) = true.
Proof.
  rewrite !forallb_forall. intros H x Hx. apply filter_In in Hx.
  now apply H.
Qed.

(** X5.  On a table, [CsvDataProcessor.run] (lab3 and lab4_5) completes
    exactly when the table has a [selling_price] column and no row kept by
    the cleaning step has text as its price. *)
Theorem csv_run_completes_iff (w : World Source) (df : DataFrame) :
  _dataset (self w) = Some df ->
  wf_df df ->
  ((exists w', Lab3.CsvDataProcessor_run w = (Ok tt, w'))
   <-> numeric_prices df) /\
  ((exists w', Lab4_5.CsvDataProcessor_run w = (Ok tt, w'))
   <-> numeric_prices df).
Proof.
  intros Hd Hwf.
  assert (Hback : forall w0 : World Source,
             _dataset (self w0) = Some df ->
             numeric_prices df ->
             exists w', Lab3.CsvDataProcessor_run w0 = (Ok tt, w')).
  { intros w0 Hd0 Hnum. rewrite (lab3_csv_run w0 Hd0).
    destruct (proj2 (categorized_numeric Hwf) Hnum) as [d Hcat].
    rewrite Hcat.
    destruct (categorized_prices_numbers Hwf Hcat) as [i [Hi Hall]].
    destruct (@sort_values_completes d "selling_price" i Hi) as [res ->].
    - unfold comparable. now rewrite (forallb_filter_keep _ _ _ Hall).
    - eauto. }
  split; split.
  - intros [w' H]. apply (categorized_numeric Hwf).
    destruct (csv_run_completes w Hd (or_introl H)) as [d [_ [Hc _]]]. eauto.
  - apply Hback, Hd.
  - intros [w' H]. apply (categorized_numeric Hwf).
    destruct (csv_run_completes w Hd (or_intror H)) as [d [_ [Hc _]]]. eauto.
  - intros Hnum. rewrite lab4_5_csv_run. now apply Hback.
Qed.

(** X6.  Without a [selling_price] column [run] raises [KeyError], but
    only after the cleaning step: the Dataset has lost its incomplete
    rows.  The Result is untouched in lab3 and is an empty table in
    lab4_5. *)
Theorem csv_run_without_price_column (w : World Source) (df : DataFrame) :
  _dataset (self w) = Some df ->
  wf_df df ->
  find_col "selling_price" (columns df) = None ->
  Lab3.CsvDataProcessor_run w =
  (Raise (KeyError "selling_price"),
   with_dataset w (Some (mkDF (columns df) (filter clean_row (rows df)))))
  /\
  Lab4_5.CsvDataProcessor_run w =
  (Raise (KeyError "selling_price"),
   with_result
     (with_dataset w (Some (mkDF (columns df) (filter clean_row (rows df)))))
     (Some (mkDF [] []))).
Proof.
  intros Hd Hwf Hnone.
  assert (Hcat : categorized (cleaned df) = Raise (KeyError "selling_price")).
  { rewrite (cleaned_filter Hwf). unfold categorized, getitem.
    cbn [columns]. now rewrite Hnone. }
  split.
  - now rewrite (lab3_csv_run w Hd), Hcat, (cleaned_filter Hwf).
  - rewrite lab4_5_csv_run.
    rewrite (@lab3_csv_run _ _ (with_result w (Some (mkDF [] []))) df Hd).
    now rewrite Hcat, (cleaned_filter Hwf).
Qed.


End Run_outcomes.

Lemma csv_run_completes_iff_witness :
  ((exists w', Lab3.CsvDataProcessor_run (P := Plain.pandas)
                                         (loaded_csv cars) = (Ok tt, w'))
   <-> numeric_prices cars) /\
  ((exists w', Lab4_5.CsvDataProcessor_run (P := Plain.pandas)
                                           (loaded_csv cars) = (Ok tt, w'))
   <-> numeric_prices cars).
Proof.
  exact (@csv_run_completes_iff string Plain.pandas (loaded_csv cars) cars
                                eq_refl wf_cars).
Defined.

Lemma wf_cars_unpriced : wf_df cars_unpriced.
Proof.
  split.
  - repeat constructor; simpl; intuition discriminate.
  - repeat constructor.
Qed.


Lemma csv_run_without_price_column_witness :
  Lab3.CsvDataProcessor_run (P := Plain.pandas) (loaded_csv cars_unpriced) =
  (Raise (KeyError "selling_price"),
   loaded_csv (mkDF ["name"; "km_driven"]
                    [mkRow 0 [Str "Maruti"; Num (xint 70000)]])).
Proof.
  exact (proj1 (@csv_run_without_price_column
                  string Plain.pandas (loaded_csv cars_unpriced)
                  cars_unpriced eq_refl wf_cars_unpriced eq_refl)).
Defined.


(** ** [run] out of order, and the TXT variant *)

Section Run_order.

Context {Source : Type} {P : Pandas Source}.

(** X8.  [run] before a successful [read]: with no Dataset, every [run]
    raises [AttributeError] and prints nothing.  The processor is left as
    it was, except that the lab4_5 CSV [run] has already replaced the
    Result by an empty table. *)
Theorem run_without_dataset (w : World Source) :
  _dataset (self w) = None ->
  Lab3.CsvDataProcessor_run w =
  (Raise (AttributeError "'NoneType' object has no attribute 'columns'"), w)
  /\
  Lab4_5.CsvDataProcessor_run w =
  (Raise (AttributeError "'NoneType' object has no attribute 'columns'"),
   with_result w (Some (mkDF [] [])))
  /\
  TxtDataProcessor_run w =
  (Raise (AttributeError "'NoneType' object has no attribute 'sort_values'"),
   w).
Proof.
  destruct w as [[src ds res seps] tr]; cbn [self _dataset].
  intros ->. repeat split.
Qed.

(** X9.  In lab3 the TXT variant cannot be used: [read] answers [False]
    in every state without entering the parser and leaves the Dataset as
    it was, so on a processor without a Dataset [read] followed by [run]
    raises [AttributeError] and no Result is stored. *)
Theorem lab3_txt_never_loads :
  (forall w : World Source,
      exists e,
        Lab3.TxtDataProcessor_read w =
        (Ok false, logged w [Print (ExnText e)])) /\
  (forall w : World Source,
      _dataset (self w) = None ->
      (Lab3.TxtDataProcessor_read ;; TxtDataProcessor_run) w =
      (Raise (AttributeError
                "'NoneType' object has no attribute 'sort_values'"),
       logged w [Print (ExnText
                          (AttributeError
                             "'NoneType' object has no attribute 'isna'"))])).
Proof.
  split.
  - intros [[src [df|] res seps] tr];
      eexists; unfold Lab3.TxtDataProcessor_read, try_except; simpl;
      reflexivity.
  - intros [[src ds res seps] tr]; cbn [self _dataset]. intros ->.
    reflexivity.
Qed.

(** X10.  On a table (one cell per column in each row, distinct column
    names) [TxtDataProcessor.run] never changes the Dataset and prints
    nothing.  It raises [KeyError] when the table has no [selling_price]
    column and [TypeError] when the prices present are not all numbers or
    all text; otherwise it completes and stores a Result with the columns
    of the Dataset. *)
Theorem txt_run_outcome (w : World Source) (df : DataFrame) :
  _dataset (self w) = Some df ->
  wf_df df ->
  match find_col "selling_price" (columns df) with
  | None =>
      TxtDataProcessor_run w = (Raise (KeyError "selling_price"), w)
  | Some i =>
      if comparable (filter notna (map (cell_at i) (rows df)))
      then exists res,
             TxtDataProcessor_run w = (Ok tt, with_result w (Some res)) /\
             columns res = columns df
      else exists msg,
             TxtDataProcessor_run w = (Raise (TypeError msg), w)
  end.
Proof.
  intros Hd _. unfold TxtDataProcessor_run.
  rewrite (sort_into_result_run w Hd).
  unfold sort_values, getitem, nargsort.
  destruct (find_col "selling_price" (columns df)) as [i|]; [|reflexivity].
  destruct (comparable (filter notna (map (cell_at i) (rows df))));
    cbn [negb]; eexists; [split|]; reflexivity.
Qed.

Lemma categorized_columns (c d : DataFrame) :
  categorized c = Ok d ->
  columns d =
  match find_col "price_category" (columns c) with
  | Some _ => columns c
  | None => columns c ++ ["price_category"]
  end.
Proof.
  unfold categorized.
  destruct (getitem c "selling_price") as [x|]; [|discriminate].
  destruct (cut x price_bins price_labels) as [cats|]; [|discriminate].
  intros [= <-]. unfold setitem.
  destruct (find_col "price_category" (columns c)); reflexivity.
Qed.

Lemma csv_run_world (w w' : World Source) (df : DataFrame) :
  _dataset (self w) = Some df ->
  Lab3.CsvDataProcessor_run w = (Ok tt, w') \/
  Lab4_5.CsvDataProcessor_run w = (Ok tt, w') ->
  exists d res,
    categorized (cleaned df) = Ok d /\
    sort_values d "selling_price" true = Ok res /\
    w' = with_result (with_dataset w (Some d)) (Some res).
Proof.
  intros Hd [H|H].
  - rewrite (lab3_csv_run w Hd) in H.
    destruct (categorized (cleaned df)) as [d|e]; [|discriminate].
    destruct (sort_values d "selling_price" true) as [r|e] eqn:Hs;
      [|discriminate].
    injection H as <-. exists d, r. auto.
  - rewrite lab4_5_csv_run in H.
    rewrite (@lab3_csv_run _ _ (with_result w (Some (mkDF [] []))) df Hd) in H.
    destruct (categorized (cleaned df)) as [d|e]; [|discriminate].
    destruct (sort_values d "selling_price" true) as [r|e] eqn:Hs;
      [|discriminate].
    injection H as <-. exists d, r. auto.
Qed.

(** X11.  A completed [CsvDataProcessor.run] prints nothing and leaves
    the source and the separators alone.  Dataset and Result get the
    columns of the table, with [price_category] appended as the last
    column unless the table already had one, and the Result has one row
    for each row the cleaning step kept. *)
Theorem csv_run_shape (w w' : World Source) (df : DataFrame) :
  argsort_ascends argsort ->
  _dataset (self w) = Some df ->
  wf_df df ->
  Lab3.CsvDataProcessor_run w = (Ok tt, w') \/
  Lab4_5.CsvDataProcessor_run w = (Ok tt, w') ->
  exists d res,
    _dataset (self w') = Some d /\
    result (self w') = Some res /\
    trace w' = trace w /\
    _datasource (self w') = _datasource (self w) /\
    separators (self w') = separators (self w) /\
    columns d = columns res /\
    columns res =
    match find_col "price_category" (columns df) with
    | Some _ => columns df
    | None => columns df ++ ["price_category"]
    end /\
    length (rows res) = length (filter clean_row (rows df)).
Proof.
  intros Hsort Hd Hwf Hrun.
  destruct (csv_run_world w Hd Hrun) as [d [res [Hcat [Hs ->]]]].
  destruct (sort_values_Permutation Hsort _ _ Hs) as [Hcols Hperm].
  exists d, res. repeat split; auto.
  - rewrite Hcols, (categorized_columns _ Hcat).
    now rewrite (cleaned_filter Hwf).
  - rewrite (Permutation_length Hperm).
    rewrite (cleaned_rowwise Hwf) in Hcat.
    destruct (@categorized_rows
                (mkDF (columns df) (dropna_any_rowwise (rows df))) d
                (rowwise_wf (proj2 Hwf)) Hcat)
      as [i [j [_ [_ [_ [Hlab _]]]]]].
    cbn [rows] in Hlab. rewrite dropna_any_rowwise_filter in Hlab.
    rewrite <- (length_map label (rows d)), Hlab. apply length_map.
Qed.

End Run_order.

Lemma run_without_dataset_witness :
  Lab4_5.CsvDataProcessor_run (P := Plain.pandas) (fresh_csv "") =
  (Raise (AttributeError "'NoneType' object has no attribute 'columns'"),
   with_result (fresh_csv "") (Some (mkDF [] []))).
Proof.
  exact (proj1 (proj2 (@run_without_dataset string Plain.pandas
                                            (fresh_csv "") eq_refl))).
Defined.

Lemma lab3_txt_never_loads_witness :
  (Lab3.TxtDataProcessor_read (P := Plain.pandas) ;;
   TxtDataProcessor_run (P := Plain.pandas))
    (fresh_txt prices_txt) =
  (Raise (AttributeError
            "'NoneType' object has no attribute 'sort_values'"),
   logged (fresh_txt prices_txt)
          [Print (ExnText
                    (AttributeError
                       "'NoneType' object has no attribute 'isna'"))]).
Proof.
  exact (proj2 (@lab3_txt_never_loads string Plain.pandas)
               (fresh_txt prices_txt) eq_refl).
Defined.

Lemma wf_prices : wf_df prices.
Proof.
  split.
  - repeat constructor; simpl; intuition discriminate.
  - repeat constructor.
Qed.

Lemma txt_run_outcome_witness :
  exists res,
    TxtDataProcessor_run (P := Plain.pandas) (loaded_txt prices) =
    (Ok tt, with_result (loaded_txt prices) (Some res)) /\
    columns res = columns prices.
Proof.
  exact (@txt_run_outcome string Plain.pandas (loaded_txt prices) prices
                          eq_refl wf_prices).
Defined.

Lemma csv_run_shape_witness :
  exists d res,
    _dataset (self (snd (Lab4_5.CsvDataProcessor_run (P := Plain.pandas)
                                                     (loaded_csv cars))))
    = Some d /\
    result (self (snd (Lab4_5.CsvDataProcessor_run (P := Plain.pandas)
                                                   (loaded_csv cars))))
    = Some res /\
    trace (snd (Lab4_5.CsvDataProcessor_run (P := Plain.pandas)
                                            (loaded_csv cars)))
    = trace (loaded_csv cars) /\
    _datasource (self (snd (Lab4_5.CsvDataProcessor_run
                              (P := Plain.pandas) (loaded_csv cars))))
    = _datasource (self (loaded_csv cars)) /\
    separators (self (snd (Lab4_5.CsvDataProcessor_run
                             (P := Plain.pandas) (loaded_csv cars))))
    = separators (self (loaded_csv cars)) /\
    columns d = columns res /\
    columns res = ["name"; "selling_price"; "price_category"] /\
    length (rows res) = 4.
Proof.
  apply (@csv_run_shape string Plain.pandas (loaded_csv cars) _ cars
                        insertion_argsort_ascends eq_refl wf_cars).
  right. vm_compute. reflexivity.
Defined.

(** ** [sort_data_by_col] in descending order *)

Section Descending.

Context {Source : Type} {P : Pandas Source}.

Lemma forallb_rev {A : Type} (f : A -> bool) (l : list A) :
  forallb f (rev l) = forallb f l.
Proof.
  induction l as [|x l IH]; [reflexivity|]. cbn [rev forallb].
  rewrite forallb_app, IH. cbn [forallb].
  rewrite andb_true_r. apply andb_comm.
Qed.

Lemma comparable_rev (keys : list cell) :
  comparable (rev keys) = comparable keys.
Proof. unfold comparable. now rewrite !forallb_rev. Qed.

Lemma Sorted_snoc {A : Type} (R : A -> A -> Prop) (l : list A) (x : A) :
  Sorted R l ->
  (forall l0 y, l = l0 ++ [y] -> R y x) ->
  Sorted R (l ++ [x]).
Proof.
  induction 1 as [|a l Hs IH Hhd]; intros Hlast; cbn [app].
  - repeat constructor.
  - constructor.
    + apply IH. intros l0 y E. apply (Hlast (a :: l0) y). now rewrite E.
    + destruct Hhd as [|b l Hab]; cbn [app].
      * constructor. now apply (Hlast [] a).
      * now constructor.
Qed.

Lemma Sorted_rev {A : Type} (R : A -> A -> Prop) (l : list A) :
  Sorted R l -> Sorted (fun a b => R b a) (rev l).
Proof.
  induction 1 as [|x l Hs IH Hhd]; cbn [rev]; [constructor|].
  apply Sorted_snoc; [exact IH|].
  intros l0 y E. destruct Hhd as [|b l Hxb]; cbn [rev] in E.
  - now destruct l0.
  - apply app_inj_tail in E. destruct E as [_ <-]. exact Hxb.
Qed.

Lemma take_positions (rs : list Row) (I p : list nat) :
  (forall k, In k p -> k < length I) ->
  take no_row rs (take 0 I p) = take no_row (take no_row rs I) p.
Proof.
  intros Hp. unfold take. rewrite map_map. apply map_ext_in.
  intros k Hk.
  rewrite (nth_indep (map (fun j => nth j rs no_row) I)
                     no_row (nth 0 rs no_row))
    by (rewrite length_map; now apply Hp).
  now rewrite (map_nth (fun j => nth j rs no_row)).
Qed.

Lemma take_rows_sorted (i : nat) (Q : list Row) (p : list nat) :
  Permutation p (seq 0 (length Q)) ->
  Sorted (key_le (map (cell_at i) Q)) p ->
  Permutation (take no_row Q p) Q /\ Sorted (row_le i) (take no_row Q p).
Proof.
  intros Hperm Hsorted. split; [now apply take_Permutation|].
  unfold take. apply Sorted_map.
  eapply Sorted_ext_in; [|exact Hsorted].
  intros x y _ _ Hxy. unfold key_le in Hxy. unfold row_le.
  now rewrite !nth_keys in Hxy.
Qed.

Lemma nargsort_rows_descending (i : nat) (rs : list Row)
      (indexer : list nat) :
  argsort_ascends argsort ->
  nargsort (map (cell_at i) rs) false = Ok indexer ->
  exists present,
    take no_row rs indexer =
    present ++ filter (fun r => isna (cell_at i r)) rs /\
    Permutation present (filter (fun r => notna (cell_at i r)) rs) /\
    Sorted (fun a b => row_le i b a) present.
Proof.
  intros Hsort. unfold nargsort.
  set (keys := map (cell_at i) rs).
  set (non_nans := filter notna keys).
  set (non_nan_idx := filter (fun k => notna (nth k keys NaN))
                             (seq 0 (length keys))).
  set (nan_idx := filter (fun k => isna (nth k keys NaN))
                         (seq 0 (length keys))).
  set (present_rows := filter (fun r => notna (cell_at i r)) rs).
  destruct (comparable non_nans) eqn:Hc; cbn [negb]; [|discriminate].
  intros [= <-].
  assert (Hnon : rev non_nans = map (cell_at i) (rev present_rows)).
  { unfold non_nans, keys, present_rows.
    now rewrite filter_map_swap, map_rev. }
  rewrite <- comparable_rev in Hc.
  destruct (Hsort (rev non_nans) Hc) as [Hperm Hsorted].
  rewrite Hnon in Hsorted.
  rewrite Hnon, length_map in Hperm.
  destruct (take_rows_sorted i (rev present_rows) Hperm Hsorted)
    as [HpL HsL].
  assert (HI : take no_row rs (rev non_nan_idx) = rev present_rows).
  { unfold take. rewrite map_rev. f_equal. apply (positions_of notna). }
  assert (Hpos : take no_row rs
                      (take 0 (rev non_nan_idx) (argsort (rev non_nans)))
                 = take no_row (rev present_rows) (argsort (rev non_nans))).
  { rewrite take_positions; [now rewrite HI|].
    intros k Hk. rewrite Hnon in Hk.
    apply (Permutation_in _ Hperm) in Hk. apply in_seq in Hk.
    rewrite <- HI in Hk. unfold take in Hk. rewrite length_map in Hk. lia. }
  exists (rev (take no_row (rev present_rows) (argsort (rev non_nans)))).
  split; [|split].
  - unfold take at 1. rewrite map_app, map_rev.
    fold (take no_row rs nan_idx).
    fold (take no_row rs
               (take 0 (rev non_nan_idx) (argsort (rev non_nans)))).
    rewrite Hpos. f_equal. apply (positions_of isna).
  - eapply Permutation_trans; [apply Permutation_sym, Permutation_rev|].
    rewrite Hnon. eapply Permutation_trans; [exact HpL|].
    apply Permutation_sym, Permutation_rev.
  - rewrite Hnon. now apply Sorted_rev.
Qed.

(** X12.  [sort_data_by_col] with [asc=False] leaves the processor as it
    is and returns the rows of the table rearranged: those with a value in
    the column first, each adjacent pair [(a, b)] with [b[col] <= a[col]],
    then those without a value in their original order; the columns are
    unchanged. *)
Theorem sort_data_by_col_descending
        (w w' : World Source) (df res : DataFrame) (colname : string) :
  argsort_ascends argsort ->
  sort_data_by_col (Some df) colname false w = (Ok res, w') ->
  w' = w /\
  exists i present,
    find_col colname (columns df) = Some i /\
    columns res = columns df /\
    rows res = present ++ filter (fun r => isna (cell_at i r)) (rows df) /\
    Permutation present (filter (fun r => notna (cell_at i r)) (rows df)) /\
    Sorted (fun a b => row_le i b a) present.
Proof.
  intros Hsort. unfold sort_data_by_col, lift, sort_values, getitem.
  destruct (find_col colname (columns df)) as [i|]; [|discriminate].
  destruct (nargsort (map (cell_at i) (rows df)) false) as [indexer|e] eqn:E;
    [|discriminate].
  unfold ret. intros [= <- <-]. split; [reflexivity|].
  destruct (nargsort_rows_descending i (rows df) Hsort E)
    as [present [H1 [H2 H3]]].
  exists i, present. cbn [columns rows]. auto.
Qed.

End Descending.

Lemma sort_data_by_col_descending_witness :
  snd (sort_data_by_col (P := Plain.pandas) (Some prices) "selling_price"
                        false (loaded_txt prices))
  = loaded_txt prices /\
  exists i present,
    find_col "selling_price" (columns prices) = Some i /\
    columns (mkDF ["selling_price"; "x"]
                  [mkRow 0 [Num (xint 5); Num (xint 1)];
                   mkRow 2 [Num (xint 3); Num (xint 3)];
                   mkRow 1 [NaN; Num (xint 2)]]) = columns prices /\
    rows (mkDF ["selling_price"; "x"]
               [mkRow 0 [Num (xint 5); Num (xint 1)];
                mkRow 2 [Num (xint 3); Num (xint 3)];
                mkRow 1 [NaN; Num (xint 2)]])
    = present ++ filter (fun r => isna (cell_at i r)) (rows prices) /\
    Permutation present
                (filter (fun r => notna (cell_at i r)) (rows prices)) /\
    Sorted (fun a b => row_le i b a) present.
Proof.
  apply (@sort_data_by_col_descending
           string Plain.pandas (loaded_txt prices) _ prices _
           "selling_price" insertion_argsort_ascends).
  vm_compute. reflexivity.
Defined.

(** ** The two versions of [CsvDataProcessor.run] *)

Section Versions.

Context {Source : Type} {P : Pandas Source}.

(** X13.  The lab4_5 [CsvDataProcessor.run] does what the lab3 one does,
    with the same outcome; when both complete they leave the same
    processor, and when they fail the only difference is the Result,
    which lab4_5 has replaced by an empty table. *)
Theorem csv_run_versions (w : World Source) :
  Lab4_5.CsvDataProcessor_run w =
  (let (r, w') := Lab3.CsvDataProcessor_run w in
   (r, match r with
       | Ok _ => w'
       | Raise _ => with_result w' (Some (mkDF [] []))
       end)).
Proof.
  destruct (_dataset (self w)) as [df|] eqn:Hd.
  - rewrite lab4_5_csv_run.
    rewrite (@lab3_csv_run _ _ (with_result w (Some (mkDF [] []))) df Hd).
    rewrite (lab3_csv_run w Hd).
    destruct (categorized (cleaned df)) as [d|e]; [|reflexivity].
    destruct (sort_values d "selling_price" true); reflexivity.
  - destruct w as [[src ds res seps] tr]; cbn [self _dataset] in Hd.
    subst ds. reflexivity.
Qed.

End Versions.

(** ** Categories along the Result *)

Section Category_order.

Context {Source : Type} {P : Pandas Source}.

Lemma xltb_le_trans (b v1 v2 : xnum) :
  xltb b v1 = true -> xleb v1 v2 = true -> xltb b v2 = true.
Proof.
  destruct b as [|p|], v1 as [|q|], v2 as [|r|];
    try reflexivity; try discriminate.
  intros H1 H2.
  apply (proj1 (xlt_Fin p q)) in H1. apply (proj1 (xle_Fin q r)) in H2.
  apply xltb_Fin_lt. lra.
Qed.

(** [searchsorted] is monotone in the value searched. *)
Lemma searchsorted_left_mono (bins : list xnum) (v1 v2 : xnum) :
  xleb v1 v2 = true ->
  searchsorted_left bins v1 <= searchsorted_left bins v2.
Proof.
  intros Hle. induction bins as [|b bins IH]; cbn [searchsorted_left].
  - lia.
  - destruct (xltb b v1) eqn:E1; [|lia].
    rewrite (xltb_le_trans _ _ _ E1 Hle). lia.
Qed.

Lemma price_category_of_ids (v : xnum) :
  searchsorted_left price_bins v <= 3 /\
  price_category (Num v) =
  Ok (match searchsorted_left price_bins v with
      | 0 => NaN
      | 1 => Num (xint 1)
      | 2 => Num (xint 2)
      | _ => Num (xint 3)
      end).
Proof.
  unfold price_category, cut_cell, price_bins, price_labels.
  cbn [searchsorted_left length].
  assert (Hinf : xltb PosInf v = false) by (now destruct v).
  rewrite Hinf.
  destruct (xltb (xint 0) v); [|split; [lia | reflexivity]].
  destruct (xltb (xint 500000) v); [|split; [lia | reflexivity]].
  destruct (xltb (xint 1500000) v); split; try lia; reflexivity.
Qed.

(** A higher price never gets a lower category. *)
Lemma price_category_mono (v1 v2 : xnum) (c1 c2 : cell) :
  xleb v1 v2 = true ->
  price_category (Num v1) = Ok c1 ->
  price_category (Num v2) = Ok c2 ->
  c1 = NaN \/ cell_leb c1 c2 = true.
Proof.
  intros Hle H1 H2.
  pose proof (searchsorted_left_mono price_bins v1 v2 Hle) as Hm.
  destruct (price_category_of_ids v1) as [_ E1].
  destruct (price_category_of_ids v2) as [_ E2].
  remember (searchsorted_left price_bins v1) as n1 eqn:Hn1.
  remember (searchsorted_left price_bins v2) as n2 eqn:Hn2.
  clear Hn1 Hn2.
  assert (Hc1 : c1 = match n1 with
                     | 0 => NaN
                     | 1 => Num (xint 1)
                     | 2 => Num (xint 2)
                     | _ => Num (xint 3)
                     end) by congruence.
  assert (Hc2 : c2 = match n2 with
                     | 0 => NaN
                     | 1 => Num (xint 1)
                     | 2 => Num (xint 2)
                     | _ => Num (xint 3)
                     end) by congruence.
  subst c1 c2.
  destruct n1 as [|[|[|n1]]]; destruct n2 as [|[|[|n2]]];
    try lia; try (left; reflexivity); right; reflexivity.
Qed.

(** X14.  In the Result of a completed [CsvDataProcessor.run] the
    categories follow the prices: for every two adjacent rows [(a, b)],
    [a] has no category or [a[price_category] <= b[price_category]]. *)
Theorem csv_result_categories_ascend
        (w w' : World Source) (df : DataFrame) :
  argsort_ascends argsort ->
  _dataset (self w) = Some df ->
  wf_df df ->
  Lab3.CsvDataProcessor_run w = (Ok tt, w') \/
  Lab4_5.CsvDataProcessor_run w = (Ok tt, w') ->
  exists res j,
    result (self w') = Some res /\
    find_col "price_category" (columns res) = Some j /\
    Sorted (fun a b => cell_at j a = NaN \/
                       cell_leb (cell_at j a) (cell_at j b) = true)
           (rows res).
Proof.
  intros Hsort Hd Hwf Hrun.
  destruct (csv_run_completes w Hd Hrun) as [d [res [Hcat [Hs [_ Hres]]]]].
  destruct (categorized_prices_numbers Hwf Hcat) as [i [Hi Hnum]].
  rewrite (cleaned_rowwise Hwf) in Hcat.
  destruct (@categorized_rows
              (mkDF (columns df) (dropna_any_rowwise (rows df))) d
              (rowwise_wf (proj2 Hwf)) Hcat)
    as [i' [j [_ [Hi' [Hj [_ Hrows]]]]]].
  assert (i' = i) by congruence. subst i'.
  destruct (sort_values_Permutation Hsort _ _ Hs) as [Hcols Hperm].
  rewrite forallb_forall in Hnum.
  assert (Hsorted : Sorted (row_le i) (rows res)).
  { apply (sort_values_no_missing Hsort _ _ Hs Hi).
    apply Forall_forall. intros r Hr.
    specialize (Hnum (cell_at i r) (in_map _ _ _ Hr)).
    now destruct (cell_at i r). }
  exists res, j. rewrite Hcols. repeat split; auto.
  eapply Sorted_ext_in; [|exact Hsorted].
  intros a b Ha Hb Hab.
  apply (Permutation_in _ Hperm) in Ha. apply (Permutation_in _ Hperm) in Hb.
  destruct (Hrows a Ha) as [Hca _]. destruct (Hrows b Hb) as [Hcb _].
  pose proof (Hnum _ (in_map (cell_at i) _ _ Ha)) as Hna.
  pose proof (Hnum _ (in_map (cell_at i) _ _ Hb)) as Hnb.
  unfold row_le in Hab.
  destruct (cell_at i a) as [|va|]; try discriminate.
  destruct (cell_at i b) as [|vb|]; try discriminate.
  exact (price_category_mono _ _ Hab Hca Hcb).
Qed.

End Category_order.

Lemma csv_result_categories_ascend_witness :
  exists res j,
    result (self (snd (Lab3.CsvDataProcessor_run (P := Plain.pandas)
                                                 (loaded_csv cars))))
    = Some res /\
    find_col "price_category" (columns res) = Some j /\
    Sorted (fun a b => cell_at j a = NaN \/
                       cell_leb (cell_at j a) (cell_at j b) = true)
           (rows res).
Proof.
  apply (@csv_result_categories_ascend
           string Plain.pandas (loaded_csv cars) _ cars
           insertion_argsort_ascends eq_refl wf_cars).
  left. vm_compute. reflexivity.
Defined.

(** ** The lab4_5 [TxtDataProcessor.read] *)

Section Txt_read_outcome.

Context {Source : Type} {P : Pandas Source}.

(** X15.  In every state the lab4_5 [TxtDataProcessor.read] returns a
    boolean and changes nothing of the processor but the Dataset.  It
    returns [True] exactly when the parser completes with at least two
    columns.  Whenever the parser completes, its table replaces the
    Dataset, also when [read] returns [False] for a single column; when
    the parser raises, the Dataset stays as it was. *)
Theorem lab4_5_txt_read_outcome (w : World Source) :
  exists b w',
    Lab4_5.TxtDataProcessor_read w = (Ok b, w') /\
    _datasource (self w') = _datasource (self w) /\
    result (self w') = result (self w) /\
    separators (self w') = separators (self w) /\
    (b = true <->
     exists df, read_table (_datasource (self w)) = Ok df /\
                2 <= length (columns df)) /\
    (forall df, read_table (_datasource (self w)) = Ok df ->
                _dataset (self w') = Some df) /\
    (forall e, read_table (_datasource (self w)) = Raise e ->
               _dataset (self w') = _dataset (self w)).
Proof.
  unfold Lab4_5.TxtDataProcessor_read, try_except.
  destruct (read_table (_datasource (self w))) as [df|e] eqn:Hd.
  - rewrite (read_whitespace_table_ok w Hd).
    eexists _, _. split; [reflexivity|].
    cbn [self logged with_dataset _datasource result separators _dataset].
    repeat split; try congruence.
    + intros Hb. exists df. split; [reflexivity|]. now apply Nat.leb_le.
    + intros [df' [E Hle]]. injection E as <-. now apply Nat.leb_le.
  - rewrite (read_whitespace_table_raises w Hd).
    eexists _, _. split; [reflexivity|].
    cbn [self logged with_dataset _datasource result separators _dataset].
    repeat split; try congruence; try discriminate.
    intros [df [E _]]. discriminate.
Qed.

End Txt_read_outcome.
